(** * figma-mcp-vercel: a verified model of the MCP bridge handlers

    The development embeds the three handler files of the repository
    (the SSE-capable handler and the two handlers kept in
    [src/api/server.ts]) and the JavaScript values they exchange with the
    Figma REST API, and states the properties of the specification over
    them. *)

From Stdlib Require Import String Ascii List Bool Arith NArith ZArith QArith Lia.
From Stdlib Require Import Decimal DecimalFacts DecimalN DecimalString.
Import ListNotations.
Close Scope Q_scope.
Open Scope string_scope.

(* ================================================================== *)
(** * JavaScript strings *)
(* ================================================================== *)

(** A JavaScript string is modelled as the [string] of its UTF-8 bytes. *)

Definition LF : ascii := ascii_of_nat 10.
Definition CR : ascii := ascii_of_nat 13.
Definition TAB : ascii := ascii_of_nat 9.
Definition BS : ascii := ascii_of_nat 8.
Definition FF : ascii := ascii_of_nat 12.
Definition DQUOTE : ascii := ascii_of_nat 34.
Definition BSLASH : ascii := ascii_of_nat 92.

(** Source literals contain double quotes and line feeds; [lit] writes them
    with ['] for a double quote and [~] for a line feed, neither of which
    occurs in a literal of the source. *)
Fixpoint lit (s : string) : string :=
  match s with
  | EmptyString => EmptyString
  | String c r =>
      String (if Ascii.eqb c "'" then DQUOTE
              else if Ascii.eqb c "~" then LF else c) (lit r)
  end.


(** JavaScript truthiness of a string. *)
Definition truthy_string (s : string) : bool :=
  match s with EmptyString => false | _ => true end.

(* ================================================================== *)
(** * JavaScript numbers *)
(* ================================================================== *)

(** Every finite double is a finite decimal, so a number is held as its
    decimal expansion: sign, integer part and the digits after the point.
    The comparisons zod performs are then exact.  Not modelled: the
    rounding of a literal to the nearest double, the sign of zero, and the
    exponent notation JavaScript prints very large and very small numbers
    in (they are printed in full). *)
Record number := mkNumber {
  num_neg : bool;
  num_int : N;
  num_frac : uint
}.

Fixpoint pow10 (k : nat) : positive :=
  match k with O => 1%positive | S k' => (10 * pow10 k')%positive end.

(** The value of a number as a rational. *)
Definition number_to_Q (n : number) : Q :=
  let k := nb_digits (num_frac n) in
  let m := Z.of_N (num_int n * Npos (pow10 k) + N.of_uint (num_frac n)) in
  Qmake (if num_neg n then (- m)%Z else m) (pow10 k).

(** Digits after the point carry no trailing zero. *)
Fixpoint strip_zeros (u : uint) : uint :=
  match u with
  | Nil => Nil
  | D0 r => match strip_zeros r with Nil => Nil | r' => D0 r' end
  | D1 r => D1 (strip_zeros r)
  | D2 r => D2 (strip_zeros r)
  | D3 r => D3 (strip_zeros r)
  | D4 r => D4 (strip_zeros r)
  | D5 r => D5 (strip_zeros r)
  | D6 r => D6 (strip_zeros r)
  | D7 r => D7 (strip_zeros r)
  | D8 r => D8 (strip_zeros r)
  | D9 r => D9 (strip_zeros r)
  end.

Definition uint_is_nil (u : uint) : bool :=
  match u with Nil => true | _ => false end.

(** The canonical number with the given sign, integer part and fraction
    digits: no trailing zero, and zero is unsigned. *)
Definition normal_number (neg : bool) (i : N) (f : uint) : number :=
  let f' := strip_zeros f in
  mkNumber (neg && negb (N.eqb i 0 && uint_is_nil f')) i f'.

Definition number_of_N (i : N) : number := mkNumber false i Nil.

Definition fraction_text (f : uint) : string :=
  match f with
  | Nil => EmptyString
  | _ => "." ++ NilEmpty.string_of_uint f
  end.

(** [String(n)] and the number production of [JSON.stringify]. *)
Definition String_of_number (n : number) : string :=
  (if num_neg n then "-" else EmptyString) ++
  NilEmpty.string_of_uint (N.to_uint (num_int n)) ++
  fraction_text (num_frac n).

Definition String_of_N (n : N) : string :=
  NilEmpty.string_of_uint (N.to_uint n).

(* ================================================================== *)
(** * JSON documents *)
(* ================================================================== *)

(** A JSON value as JavaScript holds it.  The fields of an object are kept
    in insertion order; the rule that moves integer-like keys to the front
    is not modelled. *)
Unset Elimination Schemes.
Inductive json : Type :=
| JNull
| JBool (b : bool)
| JNum (n : number)
| JStr (s : string)
| JArr (items : list json)
| JObj (fields : list (string * json)).
Set Elimination Schemes.

Section JsonInd.
Variable P : json -> Prop.
Hypothesis Hnull : P JNull.
Hypothesis Hbool : forall b, P (JBool b).
Hypothesis Hnum : forall n, P (JNum n).
Hypothesis Hstr : forall s, P (JStr s).
Hypothesis Harr : forall l, Forall P l -> P (JArr l).
Hypothesis Hobj : forall l, Forall (fun kv => P (snd kv)) l -> P (JObj l).

Fixpoint json_ind (j : json) : P j :=
  match j with
  | JNull => Hnull
  | JBool b => Hbool b
  | JNum n => Hnum n
  | JStr s => Hstr s
  | JArr l =>
      Harr l ((fix go (l : list json) : Forall P l :=
                 match l with
                 | [] => Forall_nil _
                 | x :: r => Forall_cons x (json_ind x) (go r)
                 end) l)
  | JObj l =>
      Hobj l ((fix go (l : list (string * json))
                 : Forall (fun kv => P (snd kv)) l :=
                 match l with
                 | [] => Forall_nil _
                 | kv :: r => Forall_cons kv (json_ind (snd kv)) (go r)
                 end) l)
  end.
End JsonInd.

(** Own-property lookup in an object's field list. *)
Fixpoint lookup {A} (k : string) (l : list (string * A)) : option A :=
  match l with
  | [] => None
  | (k', v) :: r => if String.eqb k k' then Some v else lookup k r
  end.

(** [o[k] = v] on a field list: an existing key keeps its position. *)
Fixpoint assign {A} (k : string) (v : A) (l : list (string * A))
  : list (string * A) :=
  match l with
  | [] => [(k, v)]
  | (k', v') :: r =>
      if String.eqb k k' then (k', v) :: r else (k', v') :: assign k v r
  end.

(** ** JSON.stringify *)

Definition hex_digit (n : N) : ascii :=
  match n with
  | 0 => "0" | 1 => "1" | 2 => "2" | 3 => "3" | 4 => "4" | 5 => "5"
  | 6 => "6" | 7 => "7" | 8 => "8" | 9 => "9" | 10 => "a" | 11 => "b"
  | 12 => "c" | 13 => "d" | 14 => "e" | _ => "f"
  end%N%char.

(** QuoteJSONString on one code unit. *)
Definition escape_char (c : ascii) : string :=
  let n := N_of_ascii c in
  if Ascii.eqb c DQUOTE then String BSLASH (String DQUOTE EmptyString)
  else if Ascii.eqb c BSLASH then String BSLASH (String BSLASH EmptyString)
  else if Ascii.eqb c BS then String BSLASH "b"
  else if Ascii.eqb c FF then String BSLASH "f"
  else if Ascii.eqb c LF then String BSLASH "n"
  else if Ascii.eqb c CR then String BSLASH "r"
  else if Ascii.eqb c TAB then String BSLASH "t"
  else if (n <? 32)%N then
    String BSLASH (String "u" (String "0" (String "0"
      (String (hex_digit (n / 16)) (String (hex_digit (n mod 16)) EmptyString)))))
  else String c EmptyString.

Fixpoint escape_string (s : string) : string :=
  match s with
  | EmptyString => EmptyString
  | String c r => escape_char c ++ escape_string r
  end.

Definition quote (s : string) : string :=
  String DQUOTE (escape_string s ++ String DQUOTE EmptyString).

Fixpoint spaces (n : nat) : string :=
  match n with O => EmptyString | S n' => String " " (spaces n') end.

(** The line break and indentation [JSON.stringify] inserts when its
    [space] argument is [gap] columns ([gap = 0]: none). *)
Definition newline (gap ind : nat) : string :=
  match gap with O => EmptyString | _ => String LF (spaces ind) end.

Definition colon (gap : nat) : string :=
  match gap with O => ":" | _ => ": " end.

Fixpoint concat_map {A} (f : A -> string) (l : list A) : string :=
  match l with
  | [] => EmptyString
  | x :: r => f x ++ concat_map f r
  end.

Section Stringify.
Variable gap : nat.

Fixpoint stringify_at (ind : nat) (j : json) : string :=
  match j with
  | JNull => "null"
  | JBool true => "true"
  | JBool false => "false"
  | JNum n => String_of_number n
  | JStr s => quote s
  | JArr [] => "[]"
  | JArr (x :: r) =>
      "[" ++ newline gap (ind + gap) ++ stringify_at (ind + gap) x ++
      concat_map (fun y => "," ++ newline gap (ind + gap) ++
                           stringify_at (ind + gap) y) r ++
      newline gap ind ++ "]"
  | JObj [] => "{}"
  | JObj (kv :: r) =>
      "{" ++ newline gap (ind + gap) ++
      quote (fst kv) ++ colon gap ++ stringify_at (ind + gap) (snd kv) ++
      concat_map (fun kv' => "," ++ newline gap (ind + gap) ++
                             quote (fst kv') ++ colon gap ++
                             stringify_at (ind + gap) (snd kv')) r ++
      newline gap ind ++ "}"
  end.
End Stringify.

(** [JSON.stringify(v, null, gap)]; [JSON.stringify(v)] is [gap = 0]. *)
Definition JSON_stringify (gap : nat) (j : json) : string :=
  stringify_at gap 0 j.

(** ** JSON.parse *)

Definition is_ws (c : ascii) : bool :=
  Ascii.eqb c " " || Ascii.eqb c LF || Ascii.eqb c CR || Ascii.eqb c TAB.

Fixpoint skip_ws (s : string) : string :=
  match s with
  | EmptyString => EmptyString
  | String c r => if is_ws c then skip_ws r else s
  end.

Definition digit_of_char (c : ascii) : option (uint -> uint) :=
  if Ascii.eqb c "0" then Some D0 else if Ascii.eqb c "1" then Some D1
  else if Ascii.eqb c "2" then Some D2 else if Ascii.eqb c "3" then Some D3
  else if Ascii.eqb c "4" then Some D4 else if Ascii.eqb c "5" then Some D5
  else if Ascii.eqb c "6" then Some D6 else if Ascii.eqb c "7" then Some D7
  else if Ascii.eqb c "8" then Some D8 else if Ascii.eqb c "9" then Some D9
  else None.

(** The longest run of decimal digits at the head of [s]. *)
Fixpoint read_digits (s : string) : uint * string :=
  match s with
  | EmptyString => (Nil, EmptyString)
  | String c r =>
      match digit_of_char c with
      | Some d => let (u, r') := read_digits r in (d u, r')
      | None => (Nil, s)
      end
  end.

(** JSON's [int]: a single 0, or digits that do not start with 0. *)
Definition leading_ok (u : uint) : bool :=
  match u with
  | Nil => false
  | D0 Nil => true
  | D0 _ => false
  | _ => true
  end.

Definition parse_frac (s : string) : option (uint * string) :=
  match s with
  | String c r =>
      if Ascii.eqb c "." then
        let (f, r') := read_digits r in
        if uint_is_nil f then None else Some (f, r')
      else Some (Nil, s)
  | EmptyString => Some (Nil, s)
  end.

Definition parse_exp_digits (neg : bool) (s : string) : option (Z * string) :=
  let (e, r) := read_digits s in
  if uint_is_nil e then None
  else Some ((if neg then - Z.of_N (N.of_uint e) else Z.of_N (N.of_uint e))%Z, r).

Definition parse_exp (s : string) : option (Z * string) :=
  match s with
  | String c r =>
      if Ascii.eqb c "e" || Ascii.eqb c "E" then
        match r with
        | String c' r' =>
            if Ascii.eqb c' "+" then parse_exp_digits false r'
            else if Ascii.eqb c' "-" then parse_exp_digits true r'
            else parse_exp_digits false r
        | EmptyString => None
        end
      else Some (0%Z, s)
  | EmptyString => Some (0%Z, s)
  end.

(** The number [ip.fp * 10^e]: the point moves over [|e|] digits. *)
Definition scale_number (neg : bool) (ip fp : uint) (e : Z) : number :=
  let il := to_list ip in
  let fl := to_list fp in
  match e with
  | Z0 => normal_number neg (N.of_uint ip) fp
  | Zpos p =>
      let k := Pos.to_nat p in
      let padded := (fl ++ repeat d0 k)%list in
      normal_number neg (N.of_uint (of_list (il ++ firstn k padded)))
                    (of_list (skipn k fl))
  | Zneg p =>
      let k := Pos.to_nat p in
      let padded := (repeat d0 k ++ il)%list in
      normal_number neg (N.of_uint (of_list (firstn (length il) padded)))
                    (of_list (skipn (length il) padded ++ fl))
  end.

(** A number after its sign. *)
Definition parse_unsigned (neg : bool) (s : string) : option (number * string) :=
  let (ip, s2) := read_digits s in
  if leading_ok ip then
    match parse_frac s2 with
    | Some (fp, s3) =>
        match parse_exp s3 with
        | Some (e, s4) => Some (scale_number neg ip fp e, s4)
        | None => None
        end
    | None => None
    end
  else None.

Definition parse_number (s : string) : option (number * string) :=
  match s with
  | String c r =>
      if Ascii.eqb c "-" then parse_unsigned true r else parse_unsigned false s
  | EmptyString => None
  end.

Definition hex_val (c : ascii) : option N :=
  let n := N_of_ascii c in
  if (48 <=? n)%N && (n <=? 57)%N then Some (n - 48)%N
  else if (97 <=? n)%N && (n <=? 102)%N then Some (n - 87)%N
  else if (65 <=? n)%N && (n <=? 70)%N then Some (n - 55)%N
  else None.

Definition hex4 (a b c d : ascii) : option N :=
  match hex_val a, hex_val b, hex_val c, hex_val d with
  | Some x, Some y, Some z, Some w => Some (((x * 16 + y) * 16 + z) * 16 + w)%N
  | _, _, _, _ => None
  end.

(** The UTF-8 bytes of a code unit. *)
Definition utf8 (n : N) : string :=
  if (n <? 128)%N then String (ascii_of_N n) EmptyString
  else if (n <? 2048)%N then
    String (ascii_of_N (192 + n / 64))
      (String (ascii_of_N (128 + n mod 64)) EmptyString)
  else
    String (ascii_of_N (224 + n / 4096))
      (String (ascii_of_N (128 + (n / 64) mod 64))
         (String (ascii_of_N (128 + n mod 64)) EmptyString)).

Definition unescape (e : ascii) : option ascii :=
  if Ascii.eqb e DQUOTE then Some DQUOTE
  else if Ascii.eqb e BSLASH then Some BSLASH
  else if Ascii.eqb e "/" then Some "/"%char
  else if Ascii.eqb e "b" then Some BS
  else if Ascii.eqb e "f" then Some FF
  else if Ascii.eqb e "n" then Some LF
  else if Ascii.eqb e "r" then Some CR
  else if Ascii.eqb e "t" then Some TAB
  else None.

(** The characters of a string literal after its opening quote, up to and
    including the closing quote. *)
Fixpoint parse_chars (s : string) : option (string * string) :=
  match s with
  | EmptyString => None
  | String c r =>
      if Ascii.eqb c DQUOTE then Some (EmptyString, r)
      else if Ascii.eqb c BSLASH then
        match r with
        | EmptyString => None
        | String e r1 =>
            if Ascii.eqb e "u" then
              match r1 with
              | String h1 (String h2 (String h3 (String h4 r2))) =>
                  match hex4 h1 h2 h3 h4, parse_chars r2 with
                  | Some n, Some (str, rest) => Some (utf8 n ++ str, rest)
                  | _, _ => None
                  end
              | _ => None
              end
            else
              match unescape e, parse_chars r1 with
              | Some x, Some (str, rest) => Some (String x str, rest)
              | _, _ => None
              end
        end
      else if (N_of_ascii c <? 32)%N then None
      else
        match parse_chars r with
        | Some (str, rest) => Some (String c str, rest)
        | None => None
        end
  end.

Fixpoint strip_prefix (p s : string) : option string :=
  match p, s with
  | EmptyString, _ => Some s
  | String a p', String b s' => if Ascii.eqb a b then strip_prefix p' s' else None
  | String _ _, EmptyString => None
  end.

Definition keyword (p : string) (v : json) (s : string) : option (json * string) :=
  match strip_prefix p s with
  | Some r => Some (v, r)
  | None => None
  end.

(** A repeated key keeps its first position and takes its last value. *)
Definition build_object (members : list (string * json)) : list (string * json) :=
  fold_left (fun o kv => assign (fst kv) (snd kv) o) members [].

Fixpoint parse_value (fuel : nat) (s : string) : option (json * string) :=
  match fuel with
  | O => None
  | S f =>
      match skip_ws s with
      | EmptyString => None
      | String c r =>
          if Ascii.eqb c "n" then keyword "ull" JNull r
          else if Ascii.eqb c "t" then keyword "rue" (JBool true) r
          else if Ascii.eqb c "f" then keyword "alse" (JBool false) r
          else if Ascii.eqb c DQUOTE then
            match parse_chars r with
            | Some (str, r') => Some (JStr str, r')
            | None => None
            end
          else if Ascii.eqb c "[" then
            match skip_ws r with
            | EmptyString => None
            | String c' r' =>
                if Ascii.eqb c' "]" then Some (JArr [], r')
                else
                  match parse_value f r with
                  | Some (x, r1) =>
                      match parse_items f r1 with
                      | Some (xs, r2) => Some (JArr (x :: xs), r2)
                      | None => None
                      end
                  | None => None
                  end
            end
          else if Ascii.eqb c "{" then
            match skip_ws r with
            | EmptyString => None
            | String c' r' =>
                if Ascii.eqb c' "}" then Some (JObj [], r')
                else
                  match parse_member f r with
                  | Some (kv, r1) =>
                      match parse_members f r1 with
                      | Some (kvs, r2) => Some (JObj (build_object (kv :: kvs)), r2)
                      | None => None
                      end
                  | None => None
                  end
            end
          else
            match parse_number (String c r) with
            | Some (n, r') => Some (JNum n, r')
            | None => None
            end
      end
  end
with parse_items (fuel : nat) (s : string) : option (list json * string) :=
  match fuel with
  | O => None
  | S f =>
      match skip_ws s with
      | EmptyString => None
      | String c r =>
          if Ascii.eqb c "]" then Some ([], r)
          else if Ascii.eqb c "," then
            match parse_value f r with
            | Some (x, r1) =>
                match parse_items f r1 with
                | Some (xs, r2) => Some (x :: xs, r2)
                | None => None
                end
            | None => None
            end
          else None
      end
  end
with parse_member (fuel : nat) (s : string) : option (string * json * string) :=
  match fuel with
  | O => None
  | S f =>
      match skip_ws s with
      | EmptyString => None
      | String c r =>
          if Ascii.eqb c DQUOTE then
            match parse_chars r with
            | Some (k, r1) =>
                match skip_ws r1 with
                | EmptyString => None
                | String c' r2 =>
                    if Ascii.eqb c' ":" then
                      match parse_value f r2 with
                      | Some (v, r3) => Some ((k, v), r3)
                      | None => None
                      end
                    else None
                end
            | None => None
            end
          else None
      end
  end
with parse_members (fuel : nat) (s : string)
  : option (list (string * json) * string) :=
  match fuel with
  | O => None
  | S f =>
      match skip_ws s with
      | EmptyString => None
      | String c r =>
          if Ascii.eqb c "}" then Some ([], r)
          else if Ascii.eqb c "," then
            match parse_member f r with
            | Some (kv, r1) =>
                match parse_members f r1 with
                | Some (kvs, r2) => Some (kv :: kvs, r2)
                | None => None
                end
            | None => None
            end
          else None
      end
  end.

(** [JSON.parse(s)]; [None] stands for the [SyntaxError] it throws. *)
Definition JSON_parse (s : string) : option json :=
  match parse_value (S (String.length s)) s with
  | Some (v, r) =>
      match skip_ws r with
      | EmptyString => Some v
      | String _ _ => None
      end
  | None => None
  end.

(** ** Reading JavaScript values *)

(** A value that may be [undefined]. *)
Definition jsval := option json.

Definition number_is_zero (n : number) : bool :=
  N.eqb (num_int n) 0 && N.eqb (N.of_uint (num_frac n)) 0.

(** ToBoolean. *)
Definition truthy (v : jsval) : bool :=
  match v with
  | None => false
  | Some JNull => false
  | Some (JBool b) => b
  | Some (JNum n) => negb (number_is_zero n)
  | Some (JStr s) => truthy_string s
  | Some (JArr _) => true
  | Some (JObj _) => true
  end.

(** ToString, as applied by template literals, [String(v)], property keys
    and [URLSearchParams.set]. *)
Fixpoint ToString_json (j : json) : string :=
  match j with
  | JNull => "null"
  | JBool true => "true"
  | JBool false => "false"
  | JNum n => String_of_number n
  | JStr s => s
  | JArr [] => EmptyString
  | JArr (x :: r) =>
      let elem y := match y with JNull => EmptyString | _ => ToString_json y end in
      elem x ++ concat_map (fun y => "," ++ elem y) r
  | JObj _ => "[object Object]"
  end.

Definition ToString (v : jsval) : string :=
  match v with
  | None => "undefined"
  | Some j => ToString_json j
  end.

(** [o[k]] on a value that is neither [null] nor [undefined].  An object is
    read as a map: the entry under [k].  Properties that are not entries
    (inherited ones, the indices and length of arrays and strings) are not
    modelled. *)
Definition get (o : json) (k : string) : jsval :=
  match o with
  | JObj fields => lookup k fields
  | _ => None
  end.

(* ================================================================== *)
(** * Thrown values, the world and the handler monad *)
(* ================================================================== *)

Record ZodIssue := mkIssue {
  issue_code : string;
  issue_path : list string;
  issue_message : string
}.

Definition issue_json (i : ZodIssue) : json :=
  JObj [("code", JStr (issue_code i));
        ("path", JArr (map JStr (issue_path i)));
        ("message", JStr (issue_message i))].

(** What a [throw] carries: an [Error] object ([name], [message]) or zod's
    [ZodError] with its issues. *)
Inductive exn :=
| JsError (name message : string)
| ZodError (issues : list ZodIssue).

Definition Error (message : string) : exn := JsError "Error" message.
Definition SyntaxError (message : string) : exn := JsError "SyntaxError" message.
Definition TypeError (message : string) : exn := JsError "TypeError" message.

(** [err.message] *)
Definition message (e : exn) : string :=
  match e with
  | JsError _ m => m
  | ZodError issues => JSON_stringify 2 (JArr (map issue_json issues))
  end.

Definition exn_name (e : exn) : string :=
  match e with
  | JsError n _ => n
  | ZodError _ => "ZodError"
  end.

(** [String(err)]: Error.prototype.toString. *)
Definition String_of_exn (e : exn) : string :=
  if truthy_string (message e) then exn_name e ++ ": " ++ message e
  else exn_name e.

(** An URL object: the string given to its constructor and the entries of
    its [searchParams].  The normalisation the URL parser applies to the
    constructor string is not modelled. *)
Record URL := mkURL {
  url_input : string;
  searchParams : list (string * string)
}.

Definition new_URL (s : string) : URL := mkURL s [].

(** [url.searchParams.set(k, v)] *)
Definition searchParams_set (k v : string) (u : URL) : URL :=
  mkURL (url_input u) (assign k v (searchParams u)).

(** An outgoing [fetch]: the URL and the request headers. *)
Record Request := mkRequest {
  req_url : URL;
  req_headers : list (string * string)
}.

(** A [fetch] response: status line and body text. *)
Record Response := mkResponse {
  status : N;
  body_text : string
}.

(** [res.ok] *)
Definition ok (r : Response) : bool :=
  (200 <=? status r)%N && (status r <=? 299)%N.

Inductive FetchOutcome :=
| Responds (r : Response)
| Rejects (e : exn).

(** The remote API: what it answers to a request, given the requests it
    has already received. *)
Definition Backend := list Request -> Request -> FetchOutcome.

(** The closures the handler hands to the runtime. *)
Inductive closure :=
| KeepAlivePing
| OnClose (keepAlive : nat).

Record Timer := mkTimer {
  timer_id : nat;
  timer_delay : N;
  timer_due : N;
  timer_callback : closure
}.

(** Everything a handler run can touch: the requests sent to the backend,
    the console, the HTTP response under construction and the runtime's
    timers and listeners. *)
Record World := mkWorld {
  fetch_log : list Request;
  console : list string;
  res_statusCode : N;
  res_headers : list (string * string);
  res_chunks : list string;
  res_ended : bool;
  now : N;
  timers : list Timer;
  next_timer : nat;
  listeners : list (string * closure)
}.

Definition fresh_world : World :=
  mkWorld [] [] 200 [] [] false 0 [] 0 [].

Inductive outcome (A : Type) :=
| Return (a : A)
| Throw (e : exn).
Arguments Return {A} a.
Arguments Throw {A} e.

(** A computation changes the world and returns or throws; what it did
    before throwing stays done. *)
Definition M (A : Type) := World -> outcome A * World.

Definition ret {A} (a : A) : M A := fun w => (Return a, w).
Definition throw {A} (e : exn) : M A := fun w => (Throw e, w).
Definition bind {A B} (c : M A) (k : A -> M B) : M B :=
  fun w =>
    match c w with
    | (Return a, w') => k a w'
    | (Throw e, w') => (Throw e, w')
    end.
Definition try_catch {A} (c : M A) (h : exn -> M A) : M A :=
  fun w =>
    match c w with
    | (Return a, w') => (Return a, w')
    | (Throw e, w') => h e w'
    end.

Declare Scope js_scope.
Delimit Scope js_scope with js.
Notation "x <- c ;; k" := (bind c (fun x => k))
  (at level 61, c at next level, right associativity) : js_scope.
Notation "c ;; k" := (bind c (fun _ => k))
  (at level 61, right associativity) : js_scope.
Open Scope js_scope.

Definition modify (f : World -> World) : M unit := fun w => (Return tt, f w).

(** ** The response object *)

Definition setHeader (k v : string) : M unit :=
  modify (fun w =>
    mkWorld (fetch_log w) (console w) (res_statusCode w)
            (assign k v (res_headers w)) (res_chunks w) (res_ended w)
            (now w) (timers w) (next_timer w) (listeners w)).

Definition res_status (code : N) : M unit :=
  modify (fun w =>
    mkWorld (fetch_log w) (console w) code (res_headers w) (res_chunks w)
            (res_ended w) (now w) (timers w) (next_timer w) (listeners w)).

(** [res.write(chunk)]: nothing is written once the response has ended. *)
Definition res_write (chunk : string) : M unit :=
  modify (fun w =>
    if res_ended w then w
    else mkWorld (fetch_log w) (console w) (res_statusCode w) (res_headers w)
                 (res_chunks w ++ [chunk]) (res_ended w) (now w) (timers w)
                 (next_timer w) (listeners w)).

Definition res_end : M unit :=
  modify (fun w =>
    mkWorld (fetch_log w) (console w) (res_statusCode w) (res_headers w)
            (res_chunks w) true (now w) (timers w) (next_timer w)
            (listeners w)).

(** [res.send(text)] *)
Definition res_send (text : string) : M unit :=
  res_write text ;; res_end.

(** [res.json(v)] *)
Definition res_json (v : json) : M unit :=
  setHeader "Content-Type" "application/json; charset=utf-8" ;;
  res_send (JSON_stringify 0 v).

Definition console_error (line : string) : M unit :=
  modify (fun w =>
    mkWorld (fetch_log w) (console w ++ [line]) (res_statusCode w)
            (res_headers w) (res_chunks w) (res_ended w) (now w) (timers w)
            (next_timer w) (listeners w)).

(** ** Timers and listeners *)

(** [setInterval(cb, delay)]: a delay under one millisecond counts as one. *)
Definition setInterval (cb : closure) (delay : N) : M nat :=
  fun w =>
    let d := N.max 1 delay in
    (Return (next_timer w),
     mkWorld (fetch_log w) (console w) (res_statusCode w) (res_headers w)
             (res_chunks w) (res_ended w) (now w)
             (timers w ++ [mkTimer (next_timer w) d (now w + d) cb])
             (S (next_timer w)) (listeners w)).

Definition clearInterval (id : nat) : M unit :=
  modify (fun w =>
    mkWorld (fetch_log w) (console w) (res_statusCode w) (res_headers w)
            (res_chunks w) (res_ended w) (now w)
            (filter (fun t => negb (Nat.eqb (timer_id t) id)) (timers w))
            (next_timer w) (listeners w)).

(** [req.on(event, cb)] *)
Definition req_on (event : string) (cb : closure) : M unit :=
  modify (fun w =>
    mkWorld (fetch_log w) (console w) (res_statusCode w) (res_headers w)
            (res_chunks w) (res_ended w) (now w) (timers w) (next_timer w)
            (listeners w ++ [(event, cb)])).

(** ** fetch *)

Definition log_request (rq : Request) (w : World) : World :=
  mkWorld (fetch_log w ++ [rq]) (console w) (res_statusCode w)
          (res_headers w) (res_chunks w) (res_ended w) (now w)
          (timers w) (next_timer w) (listeners w).

Section Fetch.
Variable backend : Backend.

(** [fetch(url, {headers})]: the request leaves the process and the
    backend answers it. *)
Definition fetch (u : URL) (headers : list (string * string)) : M Response :=
  fun w =>
    let rq := mkRequest u headers in
    match backend (fetch_log w) rq with
    | Responds r => (Return r, log_request rq w)
    | Rejects e => (Throw e, log_request rq w)
    end.
End Fetch.

(** [res.json()] on a fetch response. *)
Definition Response_json (r : Response) : M json :=
  match JSON_parse (body_text r) with
  | Some v => ret v
  | None => throw (SyntaxError "Unexpected token in JSON")
  end.

(** [res.text()] *)
Definition Response_text (r : Response) : M string := ret (body_text r).

(** ** The event loop *)

Definition SSE_PING : string := lit "data: {'jsonrpc':'2.0','method':'ping'}~~".

(** The bodies of the two closures of the SSE branch: the [setInterval]
    callback writes a ping, the [close] listener clears the interval and
    ends the response. *)
Definition run_closure (c : closure) : M unit :=
  match c with
  | KeepAlivePing => res_write SSE_PING
  | OnClose keepAlive => clearInterval keepAlive ;; res_end
  end.

Definition advance (w : World) : World :=
  mkWorld (fetch_log w) (console w) (res_statusCode w) (res_headers w)
          (res_chunks w) (res_ended w) (now w + 1) (timers w) (next_timer w)
          (listeners w).

Definition reschedule (id : nat) (w : World) : World :=
  mkWorld (fetch_log w) (console w) (res_statusCode w) (res_headers w)
          (res_chunks w) (res_ended w) (now w)
          (map (fun t =>
                  if Nat.eqb (timer_id t) id
                  then mkTimer (timer_id t) (timer_delay t)
                               (timer_due t + timer_delay t) (timer_callback t)
                  else t) (timers w))
          (next_timer w) (listeners w).

(** An interval that is still set and due runs its callback and is set
    again one delay later; a cleared interval never fires. *)
Definition fire (id : nat) (w : World) : World :=
  match find (fun t => Nat.eqb (timer_id t) id) (timers w) with
  | Some t =>
      if (timer_due t <=? now w)%N
      then snd (run_closure (timer_callback t) (reschedule id w))
      else w
  | None => w
  end.

Inductive event :=
| Tick           (* one millisecond passes *)
| ClientCloses.  (* the request emits [close] *)

Definition step (w : World) (e : event) : World :=
  match e with
  | Tick =>
      let w1 := advance w in
      fold_left (fun w id => fire id w) (map timer_id (timers w1)) w1
  | ClientCloses =>
      fold_left (fun w l =>
                   if String.eqb (fst l) "close"
                   then snd (run_closure (snd l) w) else w)
                (listeners w) w
  end.

Definition run_events (evs : list event) (w : World) : World :=
  fold_left step evs w.

(* ================================================================== *)
(** * zod schemas *)
(* ================================================================== *)

Inductive NumberCheck :=
| Min (v : number)
| Max (v : number).

Unset Elimination Schemes.
Inductive ZodType :=
| ZodString
| ZodNumber (checks : list NumberCheck)
| ZodEnum (values : list string)
| ZodDefault (inner : ZodType) (value : json)
| ZodObject (shape : list (string * ZodType)).
Set Elimination Schemes.

(** The builders of the [z] namespace, in the order the source chains
    them: [z.number().min(a).max(b).default(d)] is
    [z_default (z_max (z_min z_number a) b) d]. *)
Definition z_string : ZodType := ZodString.
Definition z_number : ZodType := ZodNumber [].
Definition z_enum (values : list string) : ZodType := ZodEnum values.
Definition z_object (shape : list (string * ZodType)) : ZodType := ZodObject shape.
Definition z_describe (t : ZodType) (_ : string) : ZodType := t.
Definition z_default (t : ZodType) (v : json) : ZodType := ZodDefault t v.
Definition z_min (t : ZodType) (v : number) : ZodType :=
  match t with ZodNumber cs => ZodNumber (cs ++ [Min v]) | _ => t end.
Definition z_max (t : ZodType) (v : number) : ZodType :=
  match t with ZodNumber cs => ZodNumber (cs ++ [Max v]) | _ => t end.

Definition number_ltb (a b : number) : bool :=
  negb (Qle_bool (number_to_Q b) (number_to_Q a)).

Definition parsed_type (v : jsval) : string :=
  match v with
  | None => "undefined"
  | Some JNull => "null"
  | Some (JBool _) => "boolean"
  | Some (JNum _) => "number"
  | Some (JStr _) => "string"
  | Some (JArr _) => "array"
  | Some (JObj _) => "object"
  end.

Definition invalid_type (path : list string) (expected : string) (v : jsval)
  : ZodIssue :=
  mkIssue "invalid_type" path
    (match v with
     | None => "Required"
     | _ => "Expected " ++ expected ++ ", received " ++ parsed_type v
     end).

Definition check_issues (path : list string) (n : number) (c : NumberCheck)
  : list ZodIssue :=
  match c with
  | Min v =>
      if number_ltb n v
      then [mkIssue "too_small" path
              ("Number must be greater than or equal to " ++ String_of_number v)]
      else []
  | Max v =>
      if number_ltb v n
      then [mkIssue "too_big" path
              ("Number must be less than or equal to " ++ String_of_number v)]
      else []
  end.

Definition enum_list (values : list string) : string :=
  match values with
  | [] => EmptyString
  | v :: r => "'" ++ v ++ "'" ++ concat_map (fun x => " | '" ++ x ++ "'") r
  end.

(** Modelled from the spec: zod's [schema.safeParse(v)], which is not part
    of the repository.  A schema checks the shape of the arguments field by
    field, fills in defaults for omitted fields, and a failure names the
    offending field (spec, section 4.4): the result is the parsed value, or
    the issues found, each with the path of the field it is about. *)
Fixpoint parse_shape (parse : string -> ZodType -> list ZodIssue + json)
  (shape : list (string * ZodType)) : list ZodIssue + list (string * json) :=
  match shape with
  | [] => inr []
  | (k, t) :: r =>
      match parse k t, parse_shape parse r with
      | inr x, inr xs => inr ((k, x) :: xs)
      | inl a, inr _ => inl a
      | inr _, inl b => inl b
      | inl a, inl b => inl (a ++ b)%list
      end
  end.

Fixpoint safeParse (t : ZodType) (path : list string) (v : jsval)
  : list ZodIssue + json :=
  match t with
  | ZodString =>
      match v with
      | Some (JStr s) => inr (JStr s)
      | _ => inl [invalid_type path "string" v]
      end
  | ZodNumber checks =>
      match v with
      | Some (JNum n) =>
          match flat_map (check_issues path n) checks with
          | [] => inr (JNum n)
          | issues => inl issues
          end
      | _ => inl [invalid_type path "number" v]
      end
  | ZodEnum values =>
      match v with
      | Some (JStr s) =>
          if existsb (String.eqb s) values then inr (JStr s)
          else inl [mkIssue "invalid_enum_value" path
                      ("Invalid enum value. Expected " ++ enum_list values ++
                       ", received '" ++ s ++ "'")]
      | _ => inl [invalid_type path (enum_list values) v]
      end
  | ZodDefault inner d =>
      match v with
      | None => safeParse inner path (Some d)
      | Some _ => safeParse inner path v
      end
  | ZodObject shape =>
      match v with
      | Some (JObj fields) =>
          match parse_shape
                  (fun k t' => safeParse t' (path ++ [k]) (lookup k fields)) shape
          with
          | inr parsed => inr (JObj parsed)
          | inl issues => inl issues
          end
      | _ => inl [invalid_type path "object" v]
      end
  end.

(* ================================================================== *)
(** * The MCP server object *)
(* ================================================================== *)

Record ContentItem := mkItem {
  type : string;
  text : jsval
}.

Record ToolResult := mkResult {
  content : list ContentItem
}.

Record ToolDescriptor := mkDescriptor {
  name : string;
  description : string;
  inputSchema : ZodType
}.

Record Server := mkServer {
  server_name : string;
  server_version : string;
  tools : list (ToolDescriptor * (json -> M ToolResult))
}.

Definition new_Server (name version : string) : Server :=
  mkServer name version [].

(** [server.tool(descriptor, handler)] *)
Definition Server_tool (s : Server) (d : ToolDescriptor)
  (handler : json -> M ToolResult) : Server :=
  mkServer (server_name s) (server_version s) (tools s ++ [(d, handler)])%list.

Record ToolInvocationRequest := mkInvocation {
  id : jsval;
  toolName : string;
  arguments : jsval
}.

Module Sdk.

(** Modelled from the spec: the envelope decoding of the SDK's
    [Server.handleJSON], which is not part of the repository.  A request
    carries an opaque correlation [id], the name of a tool and its
    arguments (spec, section 3); the JSON-RPC field names are those of a
    [tools/call] request. *)
Definition decode (body : json) : option ToolInvocationRequest :=
  match get body "params" with
  | Some params =>
      match get params "name" with
      | Some (JStr n) =>
          Some (mkInvocation (get body "id") n (get params "arguments"))
      | _ => None
      end
  | None => None
  end.

Definition item_json (i : ContentItem) : json :=
  JObj (("type", JStr (type i)) ::
        match text i with Some v => [("text", v)] | None => [] end).

(** Modelled from the spec: the reply envelope carrying a tool's result
    (spec, sections 3 and 4.3). *)
Definition encode (id : jsval) (r : ToolResult) : json :=
  JObj [("jsonrpc", JStr "2.0");
        ("id", match id with Some v => v | None => JNull end);
        ("result", JObj [("content", JArr (map item_json (content r)))])].

(** Modelled from the spec: the invoker of section 4.4.  The tool is
    looked up by name and an unknown name fails; the arguments are
    validated against the tool's schema, and a validation failure is
    raised before the handler runs; the handler is called with the
    validated, defaulted arguments and its result or error is passed on
    unchanged. *)
Definition invoke (s : Server) (rq : ToolInvocationRequest) : M ToolResult :=
  match find (fun t => String.eqb (name (fst t)) (toolName rq)) (tools s) with
  | None => throw (Error ("Unknown tool: " ++ toolName rq))
  | Some (d, handler) =>
      match safeParse (inputSchema d) [] (arguments rq) with
      | inl issues => throw (ZodError issues)
      | inr args => handler args
      end
  end.

(** Modelled from the spec: [server.handleJSON(body)], decode, invoke,
    encode (spec, section 2, control flow). *)
Definition handleJSON (s : Server) (body : jsval) : M json :=
  match body with
  | Some envelope =>
      match decode envelope with
      | Some rq =>
          r <- invoke s rq ;;
          ret (encode (id rq) r)
      | None => throw (Error "Invalid request")
      end
  | None => throw (Error "Invalid request")
  end.

End Sdk.

(* ================================================================== *)
(** * The handlers *)
(* ================================================================== *)

Record VercelRequest := mkReq {
  method : option string;
  body : jsval
}.

Definition method_is (req : VercelRequest) (m : string) : bool :=
  match method req with
  | Some m' => String.eqb m' m
  | None => false
  end.

(** [!!FIGMA_TOKEN] *)
Definition token_set (tok : option string) : bool :=
  match tok with
  | Some t => truthy_string t
  | None => false
  end.

(** The token as a header value: [undefined] is sent as its string form. *)
Definition header_value (tok : option string) : string :=
  match tok with
  | Some t => t
  | None => "undefined"
  end.

(** [JSON.parse(s)] *)
Definition JSON_parse_or_throw (s : string) : M jsval :=
  match JSON_parse s with
  | Some v => ret (Some v)
  | None => throw (SyntaxError "Unexpected token in JSON")
  end.

(** [typeof req.body === 'string' ? JSON.parse(req.body) : req.body] *)
Definition parse_body (req : VercelRequest) : M jsval :=
  match body req with
  | Some (JStr s) => JSON_parse_or_throw s
  | b => ret b
  end.

(** [data.images?.[nodeId]] *)
Definition images_entry (data : json) (nodeId : jsval) : M jsval :=
  match data with
  | JNull => throw (TypeError "Cannot read properties of null (reading 'images')")
  | _ =>
      match get data "images" with
      | None => ret None
      | Some JNull => ret None
      | Some images => ret (get images (ToString nodeId))
      end
  end.

(** [String(err?.message || err)] *)
Definition error_text (err : exn) : string :=
  if truthy_string (message err) then message err else String_of_exn err.

(** The [inputSchema] of [export-node], the same in the three files; the
    bounds of [scale] are 0.1 and 4. *)
Definition export_node_schema : ZodType :=
  z_object [("fileKey", z_string);
            ("nodeId", z_string);
            ("format", z_default (z_enum ["png"; "svg"]) (JStr "png"));
            ("scale", z_default (z_max (z_min z_number (mkNumber false 0 (D1 Nil)))
                                       (number_of_N 4))
                                (JNum (number_of_N 1)))].

(** ** src/unnamed/part_000: the handler with the SSE branch *)
Module Sse.
Section Handler.
Variable FIGMA_TOKEN : option string.
Variable backend : Backend.
Variable handleJSON : Server -> jsval -> M json.

Definition cors : M unit :=
  setHeader "Access-Control-Allow-Origin" "*" ;;
  setHeader "Access-Control-Allow-Methods" "POST, GET, OPTIONS" ;;
  setHeader "Access-Control-Allow-Headers" "Content-Type".

Definition figma (path : string) (params : option (list (string * string)))
  : M json :=
  if negb (token_set FIGMA_TOKEN) then
    throw (Error "FIGMA_ACCESS_TOKEN mangler i environment variables")
  else
    let url := new_URL ("https://api.figma.com/v1/" ++ path) in
    let url :=
      match params with
      | Some entries =>
          fold_left (fun u kv => searchParams_set (fst kv) (snd kv) u) entries url
      | None => url
      end in
    res <- fetch backend url [("X-Figma-Token", header_value FIGMA_TOKEN)] ;;
    if negb (ok res) then
      text <- Response_text res ;;
      throw (Error ("Figma " ++ String_of_N (status res) ++ ": " ++ text))
    else Response_json res.

Definition get_file_tool : ToolDescriptor :=
  mkDescriptor "get-file" "Hent Figma file JSON"
    (z_object [("fileKey", z_describe z_string "Figma file key (fra filens URL)")]).

Definition get_file (args : json) : M ToolResult :=
  let fileKey := get args "fileKey" in
  data <- figma ("files/" ++ ToString fileKey) None ;;
  ret (mkResult [mkItem "json" (Some (JStr (JSON_stringify 2 data)))]).

Definition export_node_tool : ToolDescriptor :=
  mkDescriptor "export-node"
    "Eksportér en node som PNG/SVG via Figma images API" export_node_schema.

Definition export_node (args : json) : M ToolResult :=
  let fileKey := get args "fileKey" in
  let nodeId := get args "nodeId" in
  let format := get args "format" in
  let scale := get args "scale" in
  data <- figma ("images/" ++ ToString fileKey)
            (Some [("ids", ToString nodeId);
                   ("format", ToString format);
                   ("scale", ToString scale)]) ;;
  url <- images_entry data nodeId ;;
  if negb (truthy url) then throw (Error "Ingen billed-URL retur fra Figma")
  else ret (mkResult [mkItem "text" url]).

Definition server : Server :=
  let server := new_Server "figma-mcp" "0.1.0" in
  let server := Server_tool server get_file_tool get_file in
  Server_tool server export_node_tool export_node.

Definition SSE_INITIALIZED : string :=
  lit "data: {'jsonrpc':'2.0','method':'initialized','params':{}}~~".

Definition handler (req : VercelRequest) : M unit :=
  cors ;;
  if method_is req "OPTIONS" then res_status 200 ;; res_end
  else if method_is req "GET" then
    setHeader "Content-Type" "text/event-stream" ;;
    setHeader "Cache-Control" "no-cache" ;;
    setHeader "Connection" "keep-alive" ;;
    setHeader "Access-Control-Allow-Origin" "*" ;;
    setHeader "Access-Control-Allow-Headers" "Cache-Control" ;;
    res_write SSE_INITIALIZED ;;
    keepAlive <- setInterval KeepAlivePing 30000 ;;
    req_on "close" (OnClose keepAlive) ;;
    ret tt
  else if method_is req "POST" then
    body <- parse_body req ;;
    if negb (truthy body) then
      res_status 400 ;; res_json (JObj [("error", JStr "Missing JSON body")])
    else
      try_catch
        (reply <- handleJSON server body ;;
         setHeader "Content-Type" "application/json" ;;
         res_status 200 ;; res_json reply)
        (fun err =>
           console_error ("MCP handler error: " ++ String_of_exn err) ;;
           res_status 500 ;;
           res_json (JObj [("error", JStr (error_text err))]))
  else
    res_status 200 ;;
    res_json (JObj [("ok", JBool true);
                    ("server", JStr "figma-mcp");
                    ("env", JBool (token_set FIGMA_TOKEN));
                    ("methods", JArr [JStr "GET (SSE)"; JStr "POST (JSON-RPC)"])]).
End Handler.
End Sse.

(** ** src/api/server.ts, lines 1-62: the handler without routing *)
Module ServerA.
Section Handler.
Variable FIGMA_TOKEN : option string.
Variable backend : Backend.
Variable handleJSON : Server -> jsval -> M json.

(** Module initialisation: a missing token is reported, nothing more. *)
Definition init : M unit :=
  if negb (token_set FIGMA_TOKEN)
  then console_error "Missing FIGMA_ACCESS_TOKEN env var"
  else ret tt.

Definition figma (path : string) (params : option (list (string * string)))
  : M json :=
  let url := new_URL ("https://api.figma.com/v1/" ++ path) in
  let url :=
    match params with
    | Some entries =>
        fold_left (fun u kv => searchParams_set (fst kv) (snd kv) u) entries url
    | None => url
    end in
  res <- fetch backend url [("X-Figma-Token", header_value FIGMA_TOKEN)] ;;
  if negb (ok res) then
    text <- Response_text res ;;
    throw (Error ("Figma " ++ String_of_N (status res) ++ ": " ++ text))
  else Response_json res.

Definition get_file_tool : ToolDescriptor :=
  mkDescriptor "get-file" "Hent Figma file JSON"
    (z_object [("fileKey", z_describe z_string "Figma file key fra filens URL")]).

Definition get_file (args : json) : M ToolResult :=
  let fileKey := get args "fileKey" in
  data <- figma ("files/" ++ ToString fileKey) None ;;
  ret (mkResult [mkItem "json" (Some (JStr (JSON_stringify 0 data)))]).

Definition export_node_tool : ToolDescriptor :=
  mkDescriptor "export-node"
    "Eksportér en node som PNG/SVG via Figma images API" export_node_schema.

Definition export_node (args : json) : M ToolResult :=
  let fileKey := get args "fileKey" in
  let nodeId := get args "nodeId" in
  let format := get args "format" in
  let scale := get args "scale" in
  data <- figma ("images/" ++ ToString fileKey)
            (Some [("ids", ToString nodeId);
                   ("format", ToString format);
                   ("scale", ToString scale)]) ;;
  url <- images_entry data nodeId ;;
  if negb (truthy url) then throw (Error "Ingen billed-URL retur fra Figma")
  else ret (mkResult [mkItem "text" url]).

Definition server : Server :=
  let server := new_Server "figma-mcp" "0.1.0" in
  let server := Server_tool server get_file_tool get_file in
  Server_tool server export_node_tool export_node.

Definition handler (req : VercelRequest) : M unit :=
  body <- parse_body req ;;
  reply <- handleJSON server body ;;
  setHeader "Content-Type" "application/json" ;;
  res_status 200 ;;
  res_send (JSON_stringify 0 reply).
End Handler.
End ServerA.

(** ** src/api/server.ts, lines 63-161: the handler with a health check *)
Module ServerB.
Section Handler.
Variable FIGMA_TOKEN : option string.
Variable backend : Backend.
Variable handleJSON : Server -> jsval -> M json.

Definition cors : M unit :=
  setHeader "Access-Control-Allow-Origin" "*" ;;
  setHeader "Access-Control-Allow-Methods" "POST, GET, OPTIONS" ;;
  setHeader "Access-Control-Allow-Headers" "Content-Type".

Definition figma (path : string) (params : option (list (string * string)))
  : M json :=
  if negb (token_set FIGMA_TOKEN) then
    throw (Error "FIGMA_ACCESS_TOKEN mangler i environment variables")
  else
    let url := new_URL ("https://api.figma.com/v1/" ++ path) in
    let url :=
      match params with
      | Some entries =>
          fold_left (fun u kv => searchParams_set (fst kv) (snd kv) u) entries url
      | None => url
      end in
    res <- fetch backend url [("X-Figma-Token", header_value FIGMA_TOKEN)] ;;
    if negb (ok res) then
      text <- Response_text res ;;
      throw (Error ("Figma " ++ String_of_N (status res) ++ ": " ++ text))
    else Response_json res.

Definition get_file_tool : ToolDescriptor :=
  mkDescriptor "get-file" "Hent Figma file JSON"
    (z_object [("fileKey", z_describe z_string "Figma file key (fra filens URL)")]).

Definition get_file (args : json) : M ToolResult :=
  let fileKey := get args "fileKey" in
  data <- figma ("files/" ++ ToString fileKey) None ;;
  ret (mkResult [mkItem "json" (Some (JStr (JSON_stringify 0 data)))]).

Definition export_node_tool : ToolDescriptor :=
  mkDescriptor "export-node"
    "Eksportér en node som PNG/SVG via Figma images API" export_node_schema.

Definition export_node (args : json) : M ToolResult :=
  let fileKey := get args "fileKey" in
  let nodeId := get args "nodeId" in
  let format := get args "format" in
  let scale := get args "scale" in
  data <- figma ("images/" ++ ToString fileKey)
            (Some [("ids", ToString nodeId);
                   ("format", ToString format);
                   ("scale", ToString scale)]) ;;
  url <- images_entry data nodeId ;;
  if negb (truthy url) then
    throw (Error "Ingen billed-URL retur fra Figma (tjek nodeId/fileKey)")
  else ret (mkResult [mkItem "text" url]).

Definition server : Server :=
  let server := new_Server "figma-mcp" "0.1.0" in
  let server := Server_tool server get_file_tool get_file in
  Server_tool server export_node_tool export_node.

Definition handler (req : VercelRequest) : M unit :=
  cors ;;
  if method_is req "OPTIONS" then res_status 200 ;; res_end
  else if method_is req "GET" then
    res_status 200 ;;
    res_json (JObj [("ok", JBool true);
                    ("server", JStr "figma-mcp");
                    ("env", JBool (token_set FIGMA_TOKEN))])
  else
    body <- parse_body req ;;
    if negb (truthy body) then
      res_status 400 ;;
      res_json (JObj [("error", JStr "Missing JSON body (MCP envelope)")])
    else
      try_catch
        (reply <- handleJSON server body ;;
         setHeader "Content-Type" "application/json" ;;
         res_status 200 ;; res_send (JSON_stringify 0 reply))
        (fun err =>
           console_error ("MCP handler error: " ++ String_of_exn err) ;;
           res_status 500 ;;
           res_json (JObj [("error", JStr (error_text err))])).
End Handler.
End ServerB.

(* ================================================================== *)
(** * Notions the properties are stated with *)
(* ================================================================== *)

Definition number_eqb (a b : number) : bool :=
  Bool.eqb (num_neg a) (num_neg b) && N.eqb (num_int a) (num_int b) &&
  uint_beq (num_frac a) (num_frac b).

Definition canonical (n : number) : bool :=
  number_eqb (normal_number (num_neg n) (num_int n) (num_frac n)) n.

Fixpoint distinct (l : list string) : bool :=
  match l with
  | [] => true
  | k :: r => negb (existsb (String.eqb k) r) && distinct r
  end.

(** The documents a JavaScript program holds: numbers are canonical and an
    object has no key twice. *)
Fixpoint wf_json (j : json) : bool :=
  match j with
  | JNum n => canonical n
  | JArr l => forallb wf_json l
  | JObj l => distinct (map fst l) && forallb (fun kv => wf_json (snd kv)) l
  | _ => true
  end.

(** Fuel that suffices to parse the text of a document. *)
Fixpoint weight (j : json) : nat :=
  match j with
  | JArr l => S (list_sum (map (fun x => S (weight x)) l))
  | JObj l => S (list_sum (map (fun kv => S (S (weight (snd kv)))) l))
  | _ => 1
  end.

Definition is_digit (c : ascii) : bool :=
  match digit_of_char c with Some _ => true | None => false end.

Definition digits_end (s : string) : bool :=
  match s with
  | EmptyString => true
  | String c _ => negb (is_digit c)
  end.

(** What may follow a value in a JSON text without being taken for a part
    of it. *)
Definition value_end (s : string) : bool :=
  match s with
  | EmptyString => true
  | String c _ =>
      negb (is_digit c || Ascii.eqb c "." || Ascii.eqb c "e" || Ascii.eqb c "E")
  end.

(** The URL the helper builds from a path and a parameter map. *)
Definition figma_url (path : string) (params : option (list (string * string)))
  : URL :=
  match params with
  | Some entries =>
      fold_left (fun u kv => searchParams_set (fst kv) (snd kv) u) entries
                (new_URL ("https://api.figma.com/v1/" ++ path))
  | None => new_URL ("https://api.figma.com/v1/" ++ path)
  end.

Definition figma_request (tok : option string) (path : string)
  (params : option (list (string * string))) : Request :=
  mkRequest (figma_url path params) [("X-Figma-Token", header_value tok)].

(** The parameter map of an [export-node] call. *)
Definition export_params (args : json) : option (list (string * string)) :=
  Some [("ids", ToString (get args "nodeId"));
        ("format", ToString (get args "format"));
        ("scale", ToString (get args "scale"))].


(** A backend that gives the same answer to every request. *)
Definition stub (r : Response) : Backend := fun _ _ => Responds r.

(** A backend that answers the requests in turn from a list, and the last
    answer from then on. *)
Definition scripted (answers : list Response) (last : Response) : Backend :=
  fun seen _ => Responds (nth (length seen) answers last).

(** Milliseconds that pass before the client closes the connection. *)
Fixpoint ms_before_close (evs : list event) : N :=
  match evs with
  | [] => 0
  | Tick :: r => 1 + ms_before_close r
  | ClientCloses :: _ => 0
  end.

Definition closes (evs : list event) : bool :=
  existsb (fun e => match e with ClientCloses => true | Tick => false end) evs.

(** What a call of the helper does once the request is built: the request
    is sent, and the answer decides the outcome. *)
Definition figma_sends (tok : option string) (backend : Backend)
  (path : string) (params : option (list (string * string))) (w : World)
  : outcome json * World :=
  let rq := figma_request tok path params in
  match backend (fetch_log w) rq with
  | Rejects e => (Throw e, log_request rq w)
  | Responds r =>
      if ok r then
        match JSON_parse (body_text r) with
        | Some v => (Return v, log_request rq w)
        | None => (Throw (SyntaxError "Unexpected token in JSON"), log_request rq w)
        end
      else (Throw (Error ("Figma " ++ String_of_N (status r) ++ ": " ++ body_text r)),
            log_request rq w)
  end.

(** The response headers of an open event stream. *)
Definition sse_headers : list (string * string) :=
  [("Access-Control-Allow-Origin", "*");
   ("Access-Control-Allow-Methods", "POST, GET, OPTIONS");
   ("Access-Control-Allow-Headers", "Cache-Control");
   ("Content-Type", "text/event-stream");
   ("Cache-Control", "no-cache");
   ("Connection", "keep-alive")].

(** The events written to a stream that has been open for [n] ms. *)
Definition sse_events (n : N) : list string :=
  Sse.SSE_INITIALIZED :: repeat SSE_PING (N.to_nat (n / 30000)).

(** The world [n] milliseconds after a GET, the client still connected. *)
Definition sse_open (n : N) : World :=
  mkWorld [] [] 200 sse_headers (sse_events n) false n
          [mkTimer 0 30000 (30000 * (n / 30000 + 1)) KeepAlivePing] 1
          [("close", OnClose 0)].

(** The world [m] milliseconds after the client closed a stream that had
    been open for [n] milliseconds. *)
Definition sse_closed (n m : N) : World :=
  mkWorld [] [] 200 sse_headers (sse_events n) true (n + m) [] 1
          [("close", OnClose 0)].

(* ================================================================== *)
(** * JSON.parse inverts JSON.stringify *)
(* ================================================================== *)

Section Roundtrip.

Lemma append_assoc (a b c : string) : (a ++ b) ++ c = a ++ (b ++ c).
Proof. induction a; simpl; congruence. Qed.

Lemma append_nil_r (a : string) : a ++ EmptyString = a.
Proof. induction a; simpl; congruence. Qed.

Lemma cons_append (c : ascii) (s : string) :
  String c EmptyString ++ s = String c s.
Proof. reflexivity. Qed.

Lemma length_append (a b : string) :
  String.length (a ++ b) = String.length a + String.length b.
Proof. induction a; simpl; congruence. Qed.

(** *** Digits *)

Lemma read_digits_string_of_uint (u : uint) (rest : string) :
  digits_end rest = true ->
  read_digits (NilEmpty.string_of_uint u ++ rest) = (u, rest).
Proof.
  intros Hend.
  induction u; simpl; try (rewrite IHu; reflexivity).
  destruct rest as [|c r]; [reflexivity|].
  simpl in Hend. unfold is_digit in Hend.
  simpl. destruct (digit_of_char c); [discriminate|reflexivity].
Qed.

Lemma value_end_digits_end (rest : string) :
  value_end rest = true -> digits_end rest = true.
Proof.
  destruct rest as [|c r]; [reflexivity|]. simpl.
  destruct (is_digit c); [discriminate|reflexivity].
Qed.

Lemma to_uint_normal (i : N) : unorm (N.to_uint i) = N.to_uint i.
Proof.
  rewrite <- (DecimalN.Unsigned.of_to i) at 2.
  rewrite DecimalN.Unsigned.to_of. reflexivity.
Qed.

Lemma leading_ok_to_uint (i : N) : leading_ok (N.to_uint i) = true.
Proof.
  rewrite <- to_uint_normal.
  unfold unorm.
  destruct (nzhead (N.to_uint i)) eqn:E; try reflexivity.
  exfalso. eapply nzhead_nonzero. exact E.
Qed.

Lemma string_of_uint_head (u : uint) :
  u <> Nil ->
  exists c r, NilEmpty.string_of_uint u = String c r /\ is_digit c = true.
Proof.
  destruct u; intros H; try congruence; simpl; eauto.
Qed.

Lemma to_uint_nonnil (i : N) : N.to_uint i <> Nil.
Proof.
  intros E. pose proof (leading_ok_to_uint i) as H. rewrite E in H.
  discriminate.
Qed.

(** *** Numbers *)

Lemma number_eqb_eq (a b : number) : number_eqb a b = true -> a = b.
Proof.
  destruct a as [n1 i1 f1], b as [n2 i2 f2]. unfold number_eqb. simpl.
  intros H. apply andb_prop in H as [H Hf]. apply andb_prop in H as [Hn Hi].
  apply Bool.eqb_prop in Hn. apply N.eqb_eq in Hi.
  apply internal_uint_dec_bl in Hf. congruence.
Qed.

Lemma value_end_not_minus_digit (rest : string) :
  value_end rest = true ->
  parse_frac rest = Some (Nil, rest) /\ parse_exp rest = Some (0%Z, rest).
Proof.
  destruct rest as [|c r]; [split; reflexivity|].
  simpl. intros H. apply negb_true_iff in H.
  apply orb_false_iff in H as [H HE]. apply orb_false_iff in H as [H He].
  apply orb_false_iff in H as [_ Hd].
  unfold parse_frac, parse_exp. rewrite Hd, He, HE. split; reflexivity.
Qed.

Lemma parse_frac_fraction_text (f : uint) (rest : string) :
  value_end rest = true ->
  parse_frac (fraction_text f ++ rest) = Some (f, rest).
Proof.
  intros Hend.
  destruct f;
    try (apply (proj1 (value_end_not_minus_digit rest Hend)));
    unfold fraction_text, parse_frac;
    match goal with
    | |- context [NilEmpty.string_of_uint ?u] =>
        change (match ("." ++ NilEmpty.string_of_uint u) ++ rest with
                | EmptyString => Some (Nil, ("." ++ NilEmpty.string_of_uint u) ++ rest)
                | String c r =>
                    if Ascii.eqb c "."
                    then let (f0, r') := read_digits r in
                         if uint_is_nil f0 then None else Some (f0, r')
                    else Some (Nil, ("." ++ NilEmpty.string_of_uint u) ++ rest)
                end)
          with (let (f0, r') := read_digits (NilEmpty.string_of_uint u ++ rest) in
                if uint_is_nil f0 then None else Some (f0, r'));
        rewrite (read_digits_string_of_uint u rest (value_end_digits_end _ Hend));
        reflexivity
    end.
Qed.

Lemma digits_end_fraction_text (f : uint) (rest : string) :
  value_end rest = true -> digits_end (fraction_text f ++ rest) = true.
Proof.
  intros H. destruct f; try reflexivity. simpl.
  apply value_end_digits_end, H.
Qed.

Lemma parse_unsigned_digits (neg : bool) (i : N) (f : uint) (rest : string) :
  value_end rest = true ->
  parse_unsigned neg
    (NilEmpty.string_of_uint (N.to_uint i) ++ fraction_text f ++ rest)
  = Some (normal_number neg i f, rest).
Proof.
  intros Hend. unfold parse_unsigned.
  rewrite (read_digits_string_of_uint _ _ (digits_end_fraction_text f rest Hend)).
  rewrite leading_ok_to_uint, (parse_frac_fraction_text f rest Hend).
  rewrite (proj2 (value_end_not_minus_digit rest Hend)).
  simpl scale_number. rewrite DecimalN.Unsigned.of_to. reflexivity.
Qed.

Lemma parse_number_String_of_number (n : number) (rest : string) :
  canonical n = true -> value_end rest = true ->
  parse_number (String_of_number n ++ rest) = Some (n, rest).
Proof.
  intros Hn Hend. apply number_eqb_eq in Hn.
  destruct n as [neg i f]. simpl in Hn.
  unfold String_of_number; simpl num_neg; simpl num_int; simpl num_frac.
  fold (fraction_text f).
  destruct neg.
  - change (parse_number (("-" ++ NilEmpty.string_of_uint (N.to_uint i) ++
                           fraction_text f) ++ rest))
      with (parse_unsigned true
              ((NilEmpty.string_of_uint (N.to_uint i) ++ fraction_text f) ++ rest)).
    rewrite append_assoc, (parse_unsigned_digits true i f rest Hend).
    rewrite Hn. reflexivity.
  - change ((EmptyString ++ NilEmpty.string_of_uint (N.to_uint i) ++
             fraction_text f) ++ rest)
      with ((NilEmpty.string_of_uint (N.to_uint i) ++ fraction_text f) ++ rest).
    rewrite append_assoc.
    destruct (string_of_uint_head (N.to_uint i) (to_uint_nonnil i))
      as (c & r & Hc & Hd).
    assert (Hm : Ascii.eqb c "-" = false).
    { destruct (Ascii.eqb c "-") eqn:E; [|reflexivity].
      apply Ascii.eqb_eq in E. subst c. discriminate. }
    pose proof (parse_unsigned_digits false i f rest Hend) as Hp.
    rewrite Hc in *. simpl. rewrite Hm. simpl in Hp. rewrite Hp, Hn.
    reflexivity.
Qed.

(** *** Strings *)

Lemma parse_chars_escape_char (c : ascii) (tail : string) :
  parse_chars (escape_char c ++ tail) =
  match parse_chars tail with
  | Some (str, rest) => Some (String c str, rest)
  | None => None
  end.
Proof.
  destruct c as [[|] [|] [|] [|] [|] [|] [|] [|]]; reflexivity.
Qed.

Lemma parse_chars_escape_string (s rest : string) :
  parse_chars (escape_string s ++ String DQUOTE rest) = Some (s, rest).
Proof.
  induction s as [|c s IH]; [reflexivity|].
  simpl escape_string. rewrite append_assoc, parse_chars_escape_char, IH.
  reflexivity.
Qed.

Lemma quote_append (s rest : string) :
  quote s ++ rest = String DQUOTE (escape_string s ++ String DQUOTE rest).
Proof.
  unfold quote. simpl. rewrite append_assoc. reflexivity.
Qed.

(** *** Values *)

Variable gap : nat.

Lemma skip_ws_spaces (n : nat) (s : string) :
  skip_ws (spaces n ++ s) = skip_ws s.
Proof. induction n; simpl; auto. Qed.

Lemma skip_ws_newline (ind : nat) (s : string) :
  skip_ws (newline gap ind ++ s) = skip_ws s.
Proof.
  unfold newline. destruct gap; [reflexivity|].
  simpl. apply skip_ws_spaces.
Qed.

Lemma parse_value_newline (fuel ind : nat) (s : string) :
  parse_value fuel (newline gap ind ++ s) = parse_value fuel s.
Proof. destruct fuel; simpl; [reflexivity|]. rewrite skip_ws_newline. reflexivity. Qed.

Lemma parse_items_newline (fuel ind : nat) (s : string) :
  parse_items fuel (newline gap ind ++ s) = parse_items fuel s.
Proof. destruct fuel; simpl; [reflexivity|]. rewrite skip_ws_newline. reflexivity. Qed.

Lemma parse_member_newline (fuel ind : nat) (s : string) :
  parse_member fuel (newline gap ind ++ s) = parse_member fuel s.
Proof. destruct fuel; simpl; [reflexivity|]. rewrite skip_ws_newline. reflexivity. Qed.

Lemma parse_members_newline (fuel ind : nat) (s : string) :
  parse_members fuel (newline gap ind ++ s) = parse_members fuel s.
Proof. destruct fuel; simpl; [reflexivity|]. rewrite skip_ws_newline. reflexivity. Qed.

Lemma is_digit_cases (c : ascii) :
  is_digit c = true ->
  is_ws c = false /\ Ascii.eqb c "]" = false /\ Ascii.eqb c "}" = false /\
  Ascii.eqb c "n" = false /\ Ascii.eqb c "t" = false /\
  Ascii.eqb c "f" = false /\ Ascii.eqb c DQUOTE = false /\
  Ascii.eqb c "[" = false /\ Ascii.eqb c "{" = false /\
  Ascii.eqb c "-" = false.
Proof.
  destruct c as [[|] [|] [|] [|] [|] [|] [|] [|]];
    try discriminate; intros _; repeat split; reflexivity.
Qed.

(** The text of a number starts with a digit or a minus sign. *)
Lemma String_of_number_head (n : number) (rest : string) :
  exists c r, String_of_number n ++ rest = String c r /\
              (c = "-"%char \/ is_digit c = true).
Proof.
  unfold String_of_number.
  destruct (string_of_uint_head (N.to_uint (num_int n)) (to_uint_nonnil _))
    as (c & r & Hc & Hd).
  destruct (num_neg n); simpl.
  - eauto.
  - rewrite Hc. simpl. eauto.
Qed.

Lemma parse_value_number (fuel : nat) (n : number) (rest : string) :
  canonical n = true -> value_end rest = true ->
  parse_value (S fuel) (String_of_number n ++ rest) = Some (JNum n, rest).
Proof.
  intros Hn Hend.
  pose proof (parse_number_String_of_number n rest Hn Hend) as Hp.
  destruct (String_of_number_head n rest) as (c & r & Hc & Hd).
  rewrite Hc in *.
  destruct Hd as [-> | Hd].
  - cbn -[parse_number]. rewrite Hp. reflexivity.
  - destruct (is_digit_cases c Hd)
      as (Hw & _ & _ & H1 & H2 & H3 & H4 & H5 & H6 & _).
    cbn -[parse_number is_ws Ascii.eqb DQUOTE].
    rewrite Hw, H1, H2, H3, H4, H5, H6, Hp. reflexivity.
Qed.

Lemma stringify_head (v : json) (ind : nat) (rest : string) :
  exists c r, stringify_at gap ind v ++ rest = String c r /\
              is_ws c = false /\ Ascii.eqb c "]" = false /\
              Ascii.eqb c "}" = false.
Proof.
  destruct v as [|[|]|n|s|[|x l]|[|kv l]];
    try (simpl; do 2 eexists; split; [reflexivity|repeat split; reflexivity]).
  simpl stringify_at.
  destruct (String_of_number_head n rest) as (c & r & Hc & [-> | Hd]).
  - eauto 10.
  - destruct (is_digit_cases c Hd) as (Hw & H1 & H2 & _). eauto 10.
Qed.

Lemma parse_value_bracket (f : nat) (tail : string) :
  parse_value (S f) ("[" ++ tail) =
  match skip_ws tail with
  | EmptyString => None
  | String c' r' =>
      if Ascii.eqb c' "]" then Some (JArr [], r')
      else
        match parse_value f tail with
        | Some (x, r1) =>
            match parse_items f r1 with
            | Some (xs, r2) => Some (JArr (x :: xs), r2)
            | None => None
            end
        | None => None
        end
  end.
Proof. reflexivity. Qed.

Lemma parse_value_brace (f : nat) (tail : string) :
  parse_value (S f) ("{" ++ tail) =
  match skip_ws tail with
  | EmptyString => None
  | String c' r' =>
      if Ascii.eqb c' "}" then Some (JObj [], r')
      else
        match parse_member f tail with
        | Some (kv, r1) =>
            match parse_members f r1 with
            | Some (kvs, r2) => Some (JObj (build_object (kv :: kvs)), r2)
            | None => None
            end
        | None => None
        end
  end.
Proof. reflexivity. Qed.

Lemma parse_items_comma (f : nat) (tail : string) :
  parse_items (S f) ("," ++ tail) =
  match parse_value f tail with
  | Some (x, r1) =>
      match parse_items f r1 with
      | Some (xs, r2) => Some (x :: xs, r2)
      | None => None
      end
  | None => None
  end.
Proof. reflexivity. Qed.

Lemma parse_items_close (f : nat) (rest : string) :
  parse_items (S f) ("]" ++ rest) = Some ([], rest).
Proof. reflexivity. Qed.

Lemma parse_members_comma (f : nat) (tail : string) :
  parse_members (S f) ("," ++ tail) =
  match parse_member f tail with
  | Some (kv, r1) =>
      match parse_members f r1 with
      | Some (kvs, r2) => Some (kv :: kvs, r2)
      | None => None
      end
  | None => None
  end.
Proof. reflexivity. Qed.

Lemma parse_members_close (f : nat) (rest : string) :
  parse_members (S f) ("}" ++ rest) = Some ([], rest).
Proof. reflexivity. Qed.

Lemma parse_member_dquote (f : nat) (s : string) :
  parse_member (S f) (String DQUOTE s) =
  match parse_chars s with
  | Some (k, r1) =>
      match skip_ws r1 with
      | EmptyString => None
      | String c' r2 =>
          if Ascii.eqb c' ":" then
            match parse_value f r2 with
            | Some (v, r3) => Some ((k, v), r3)
            | None => None
            end
          else None
      end
  | None => None
  end.
Proof. reflexivity. Qed.

Lemma parse_value_dquote (f : nat) (s : string) :
  parse_value (S f) (String DQUOTE s) =
  match parse_chars s with
  | Some (str, r') => Some (JStr str, r')
  | None => None
  end.
Proof. reflexivity. Qed.

Lemma skip_ws_head (c : ascii) (r : string) :
  is_ws c = false -> skip_ws (String c r) = String c r.
Proof. intros H. simpl. rewrite H. reflexivity. Qed.

Lemma parse_value_space (f : nat) (s : string) :
  parse_value f (String " " s) = parse_value f s.
Proof. destruct f; reflexivity. Qed.

Lemma parse_member_quote (f : nat) (k tail : string) :
  parse_member (S f) (quote k ++ colon gap ++ tail) =
  match parse_value f tail with
  | Some (v, r3) => Some ((k, v), r3)
  | None => None
  end.
Proof.
  rewrite quote_append, parse_member_dquote, parse_chars_escape_string.
  unfold colon. destruct gap.
  - reflexivity.
  - change (skip_ws (": " ++ tail)) with (String ":" (String " " tail)).
    change (Ascii.eqb ":" ":") with true. cbv iota.
    rewrite parse_value_space. reflexivity.
Qed.

(** *** Objects without repeated keys are built as they are read *)

Lemma distinct_NoDup (l : list string) : distinct l = true -> NoDup l.
Proof.
  induction l as [|k r IH]; simpl; intros H; constructor.
  - apply andb_prop in H as [H _]. apply negb_true_iff in H.
    intros Hin. assert (E : existsb (String.eqb k) r = true).
    { apply existsb_exists. exists k. split; [assumption|apply String.eqb_refl]. }
    congruence.
  - apply IH. apply andb_prop in H as [_ H]. exact H.
Qed.

Lemma assign_fresh {A} (k : string) (v : A) (acc : list (string * A)) :
  ~ In k (map fst acc) -> assign k v acc = (acc ++ [(k, v)])%list.
Proof.
  induction acc as [|[k' v'] acc IH]; simpl; intros H; [reflexivity|].
  destruct (String.eqb k k') eqn:E.
  - apply String.eqb_eq in E. subst. tauto.
  - rewrite IH; [reflexivity|tauto].
Qed.

Lemma fold_assign_fresh (l acc : list (string * json)) :
  NoDup (map fst acc ++ map fst l) ->
  fold_left (fun o kv => assign (fst kv) (snd kv) o) l acc = (acc ++ l)%list.
Proof.
  revert acc. induction l as [|[k v] l IH]; intros acc H; simpl.
  - rewrite List.app_nil_r. reflexivity.
  - rewrite assign_fresh.
    + rewrite IH.
      * rewrite <- List.app_assoc. reflexivity.
      * rewrite List.map_app. simpl. rewrite <- List.app_assoc. exact H.
    + simpl in H. apply NoDup_remove_2 in H. intros Hin. apply H.
      apply in_or_app. left. exact Hin.
Qed.

Lemma build_object_distinct (l : list (string * json)) :
  distinct (map fst l) = true -> build_object l = l.
Proof.
  intros H. unfold build_object. apply (fold_assign_fresh l []).
  simpl. apply distinct_NoDup, H.
Qed.

(** *** The induction *)

Lemma value_end_items (ie ic : nat) (l : list json) (rest : string) :
  value_end (concat_map (fun y => "," ++ newline gap ie ++ stringify_at gap ie y) l
             ++ newline gap ic ++ "]" ++ rest) = true.
Proof.
  destruct l; simpl; [|reflexivity].
  unfold newline. destruct gap; reflexivity.
Qed.

Lemma value_end_members (ie ic : nat) (l : list (string * json)) (rest : string) :
  value_end (concat_map (fun kv => "," ++ newline gap ie ++ quote (fst kv) ++
                                   colon gap ++ stringify_at gap ie (snd kv)) l
             ++ newline gap ic ++ "}" ++ rest) = true.
Proof.
  destruct l; simpl; [|reflexivity].
  unfold newline. destruct gap; reflexivity.
Qed.

Lemma parse_items_stringify (l : list json) :
  Forall (fun x =>
            wf_json x = true ->
            forall fuel ind rest, weight x <= fuel -> value_end rest = true ->
              parse_value fuel (stringify_at gap ind x ++ rest) = Some (x, rest)) l ->
  forallb wf_json l = true ->
  forall fuel ie ic rest,
    S (list_sum (map (fun x => S (weight x)) l)) <= fuel ->
    parse_items fuel
      (concat_map (fun y => "," ++ newline gap ie ++ stringify_at gap ie y) l
       ++ newline gap ic ++ "]" ++ rest) = Some (l, rest).
Proof.
  induction 1 as [|x l Hx _ IH]; intros Hwf fuel ie ic rest Hfuel.
  - destruct fuel as [|f]; [inversion Hfuel|].
    cbn [concat_map]. change (EmptyString ++ ?s) with s.
    rewrite parse_items_newline. apply parse_items_close.
  - simpl in Hwf. apply andb_prop in Hwf as [Hwx Hwl].
    simpl in Hfuel. destruct fuel as [|f]; [inversion Hfuel|].
    cbn [concat_map]. rewrite !append_assoc.
    rewrite parse_items_comma, parse_value_newline.
    rewrite (Hx Hwx f ie _ ltac:(lia) (value_end_items ie ic l rest)).
    rewrite (IH Hwl f ie ic rest ltac:(lia)). reflexivity.
Qed.

Lemma parse_members_stringify (l : list (string * json)) :
  Forall (fun kv =>
            wf_json (snd kv) = true ->
            forall fuel ind rest, weight (snd kv) <= fuel -> value_end rest = true ->
              parse_value fuel (stringify_at gap ind (snd kv) ++ rest)
              = Some (snd kv, rest)) l ->
  forallb (fun kv => wf_json (snd kv)) l = true ->
  forall fuel ie ic rest,
    S (list_sum (map (fun kv => S (S (weight (snd kv)))) l)) <= fuel ->
    parse_members fuel
      (concat_map (fun kv => "," ++ newline gap ie ++ quote (fst kv) ++
                             colon gap ++ stringify_at gap ie (snd kv)) l
       ++ newline gap ic ++ "}" ++ rest) = Some (l, rest).
Proof.
  induction 1 as [|[k v] l Hx _ IH]; intros Hwf fuel ie ic rest Hfuel.
  - destruct fuel as [|f]; [inversion Hfuel|].
    cbn [concat_map]. change (EmptyString ++ ?s) with s.
    rewrite parse_members_newline. apply parse_members_close.
  - simpl in Hwf. apply andb_prop in Hwf as [Hwx Hwl].
    simpl in Hfuel, Hx. destruct fuel as [|f]; [inversion Hfuel|].
    destruct f as [|f]; [lia|].
    cbn [concat_map fst snd]. rewrite !append_assoc.
    rewrite parse_members_comma, parse_member_newline, parse_member_quote.
    rewrite (Hx Hwx f ie _ ltac:(lia) (value_end_members ie ic l rest)).
    rewrite (IH Hwl (S f) ie ic rest ltac:(lia)). reflexivity.
Qed.

Lemma parse_value_stringify_at (v : json) :
  wf_json v = true ->
  forall fuel ind rest, weight v <= fuel -> value_end rest = true ->
    parse_value fuel (stringify_at gap ind v ++ rest) = Some (v, rest).
Proof.
  induction v as [|b|n|s|l IH|l IH] using json_ind;
    intros Hwf fuel ind rest Hfuel Hend;
    (destruct fuel as [|f]; [simpl in Hfuel; lia|]).
  - reflexivity.
  - destruct b; reflexivity.
  - apply parse_value_number; assumption.
  - simpl stringify_at. rewrite quote_append, parse_value_dquote.
    rewrite parse_chars_escape_string. reflexivity.
  - destruct l as [|x l]; [reflexivity|].
    simpl in Hwf. apply andb_prop in Hwf as [Hwx Hwl].
    simpl in Hfuel. inversion IH as [|x' l' Hx Hl]; subst.
    cbn [stringify_at]. rewrite !append_assoc.
    rewrite parse_value_bracket, skip_ws_newline.
    destruct (stringify_head x (ind + gap)
                (concat_map (fun y => "," ++ newline gap (ind + gap) ++
                                      stringify_at gap (ind + gap) y) l
                 ++ newline gap ind ++ "]" ++ rest))
      as (c & r & Hc & Hw & Hb & _).
    rewrite Hc, (skip_ws_head c r Hw), Hb, <- Hc.
    rewrite parse_value_newline.
    rewrite (Hx Hwx f (ind + gap) _ ltac:(lia) (value_end_items _ _ l rest)).
    rewrite (parse_items_stringify l Hl Hwl f _ _ rest ltac:(lia)).
    reflexivity.
  - destruct l as [|[k v] l]; [reflexivity|].
    simpl in Hwf. apply andb_prop in Hwf as [Hd Hwf].
    apply andb_prop in Hwf as [Hwx Hwl].
    simpl in Hfuel. inversion IH as [|x' l' Hx Hl]; subst. simpl in Hx.
    destruct f as [|f]; [lia|].
    cbn [stringify_at fst snd]. rewrite !append_assoc.
    rewrite parse_value_brace, skip_ws_newline.
    rewrite quote_append at 1.
    rewrite (skip_ws_head DQUOTE _ eq_refl).
    change (Ascii.eqb DQUOTE "}") with false. cbv iota.
    rewrite parse_member_newline, parse_member_quote.
    rewrite (Hx Hwx f (ind + gap) _ ltac:(lia) (value_end_members _ _ l rest)).
    rewrite (parse_members_stringify l Hl Hwl (S f) _ _ rest ltac:(lia)).
    rewrite build_object_distinct; [reflexivity|].
    simpl. exact Hd.
Qed.

(** *** Fuel *)

Lemma length_quote (s : string) : 2 <= String.length (quote s).
Proof. unfold quote. simpl. rewrite length_append. simpl. lia. Qed.

Lemma length_colon : 1 <= String.length (colon gap).
Proof. unfold colon. destruct gap; simpl; lia. Qed.

Lemma length_String_of_number (n : number) :
  1 <= String.length (String_of_number n).
Proof.
  destruct (String_of_number_head n EmptyString) as (c & r & H & _).
  rewrite append_nil_r in H. rewrite H. simpl. lia.
Qed.

Lemma weight_le_length (v : json) :
  forall ind, weight v <= String.length (stringify_at gap ind v).
Proof.
  induction v as [|b|n|s|l IH|l IH] using json_ind; intros ind.
  - simpl. lia.
  - destruct b; simpl; lia.
  - simpl. apply length_String_of_number.
  - simpl. pose proof (length_quote s). lia.
  - destruct l as [|x l]; [simpl; lia|].
    inversion IH as [|x' l' Hx Hl]; subst.
    cbn [stringify_at weight map list_sum].
    rewrite !length_append. specialize (Hx (ind + gap)).
    assert (Hitems :
      list_sum (map (fun x => S (weight x)) l) <=
      String.length
        (concat_map (fun y => "," ++ newline gap (ind + gap) ++
                              stringify_at gap (ind + gap) y) l)).
    { clear Hx IH. induction Hl as [|y l Hy _ IHl]; [simpl; lia|].
      cbn [concat_map map]. unfold list_sum in *. cbn [fold_right].
      rewrite !length_append.
      specialize (Hy (ind + gap)). simpl String.length at 1. lia. }
    unfold list_sum in *. cbn [fold_right].
    simpl String.length at 1. simpl (String.length "]"). lia.
  - destruct l as [|[k v] l]; [simpl; lia|].
    inversion IH as [|x' l' Hx Hl]; subst. simpl in Hx.
    cbn [stringify_at weight map list_sum fst snd].
    rewrite !length_append. specialize (Hx (ind + gap)).
    assert (Hitems :
      list_sum (map (fun kv => S (S (weight (snd kv)))) l) <=
      String.length
        (concat_map (fun kv => "," ++ newline gap (ind + gap) ++
                               quote (fst kv) ++ colon gap ++
                               stringify_at gap (ind + gap) (snd kv)) l)).
    { clear Hx IH. induction Hl as [|[k' v'] l Hy _ IHl]; [simpl; lia|].
      cbn [concat_map map fst snd]. unfold list_sum in *. cbn [fold_right].
      rewrite !length_append.
      simpl in Hy. specialize (Hy (ind + gap)).
      pose proof (length_quote k'). pose proof length_colon.
      simpl String.length at 1. lia. }
    pose proof (length_quote k). pose proof length_colon.
    unfold list_sum in *. cbn [fold_right].
    simpl String.length at 1. simpl (String.length "}"). lia.
Qed.

(** [JSON.parse(JSON.stringify(v, null, gap))] is [v]. *)
Lemma JSON_parse_stringify_gap (v : json) :
  wf_json v = true -> JSON_parse (JSON_stringify gap v) = Some v.
Proof.
  intros Hwf. unfold JSON_parse, JSON_stringify.
  pose proof (weight_le_length v 0) as Hw.
  pose proof (parse_value_stringify_at v Hwf
                (S (String.length (stringify_at gap 0 v))) 0 EmptyString
                ltac:(lia) eq_refl) as Hp.
  rewrite append_nil_r in Hp. rewrite Hp. reflexivity.
Qed.

End Roundtrip.

(* ================================================================== *)
(** * What JSON.parse returns is a well-formed document *)
(* ================================================================== *)

Section Parsed.















End Parsed.

(* ================================================================== *)
(** * The Figma helper *)
(* ================================================================== *)


Lemma Sse_figma_run tok backend path params w :
  Sse.figma tok backend path params w =
  if token_set tok then figma_sends tok backend path params w
  else (Throw (Error "FIGMA_ACCESS_TOKEN mangler i environment variables"), w).
Proof.
  unfold Sse.figma, figma_sends, figma_request, figma_url.
  destruct (token_set tok); [|reflexivity].
  destruct params as [entries|]; cbn [negb];
    unfold bind, fetch, Response_text, Response_json, ret, throw;
    match goal with
    | |- context [backend ?l ?rq] => destruct (backend l rq) as [r|e]
    end; try reflexivity;
    destruct (ok r); cbn [negb]; try reflexivity;
    destruct (JSON_parse (body_text r)); reflexivity.
Qed.

Lemma ServerB_figma_run tok backend path params w :
  ServerB.figma tok backend path params w =
  if token_set tok then figma_sends tok backend path params w
  else (Throw (Error "FIGMA_ACCESS_TOKEN mangler i environment variables"), w).
Proof.
  unfold ServerB.figma, figma_sends, figma_request, figma_url.
  destruct (token_set tok); [|reflexivity].
  destruct params as [entries|]; cbn [negb];
    unfold bind, fetch, Response_text, Response_json, ret, throw;
    match goal with
    | |- context [backend ?l ?rq] => destruct (backend l rq) as [r|e]
    end; try reflexivity;
    destruct (ok r); cbn [negb]; try reflexivity;
    destruct (JSON_parse (body_text r)); reflexivity.
Qed.

Lemma ServerA_figma_run tok backend path params w :
  ServerA.figma tok backend path params w = figma_sends tok backend path params w.
Proof.
  unfold ServerA.figma, figma_sends, figma_request, figma_url.
  destruct params as [entries|];
    unfold bind, fetch, Response_text, Response_json, ret, throw;
    match goal with
    | |- context [backend ?l ?rq] => destruct (backend l rq) as [r|e]
    end; try reflexivity;
    destruct (ok r); cbn [negb]; try reflexivity;
    destruct (JSON_parse (body_text r)); reflexivity.
Qed.

Lemma figma_sends_log tok backend path params w :
  fetch_log (snd (figma_sends tok backend path params w)) =
  (fetch_log w ++ [figma_request tok path params])%list.
Proof.
  unfold figma_sends.
  destruct (backend _ _) as [r|e]; [|reflexivity].
  destruct (ok r); [|reflexivity].
  destruct (JSON_parse (body_text r)); reflexivity.
Qed.

(** C7.  A backend call, for a file or for an export URL, that gets a
    response outside 200-299 throws an error whose message is made of the
    response's status code and body text, and exactly one request has been
    sent: the call is not repeated. *)
Theorem figma_non_2xx_fails_once
  (tok : option string) (backend : Backend) (path : string)
  (params : option (list (string * string))) (w : World) (r : Response) :
  token_set tok = true ->
  backend (fetch_log w) (figma_request tok path params) = Responds r ->
  ok r = false ->
  let failure :=
    (Throw (Error ("Figma " ++ String_of_N (status r) ++ ": " ++ body_text r)),
     log_request (figma_request tok path params) w) in
  Sse.figma tok backend path params w = failure /\
  ServerB.figma tok backend path params w = failure /\
  fetch_log (snd failure) = (fetch_log w ++ [figma_request tok path params])%list.
Proof.
  intros Htok Hb Hok failure.
  rewrite Sse_figma_run, ServerB_figma_run, Htok.
  unfold figma_sends. rewrite Hb, Hok. repeat split.
Qed.

Lemma figma_non_2xx_fails_once_witness :
  Sse.figma (Some "figd_token") (stub (mkResponse 404 "Not found"))
            "files/abc123" None fresh_world
  = (Throw (Error "Figma 404: Not found"),
     log_request (figma_request (Some "figd_token") "files/abc123" None) fresh_world).
Proof.
  apply (figma_non_2xx_fails_once (Some "figd_token")
           (stub (mkResponse 404 "Not found")) "files/abc123" None fresh_world
           (mkResponse 404 "Not found")); reflexivity.
Defined.

(* ================================================================== *)
(** * The tool handlers *)
(* ================================================================== *)

Lemma Sse_tools_need_token tok backend args w :
  token_set tok = false ->
  Sse.get_file tok backend args w =
    (Throw (Error "FIGMA_ACCESS_TOKEN mangler i environment variables"), w) /\
  Sse.export_node tok backend args w =
    (Throw (Error "FIGMA_ACCESS_TOKEN mangler i environment variables"), w).
Proof.
  intros H. unfold Sse.get_file, Sse.export_node, bind.
  rewrite !Sse_figma_run, H. split; reflexivity.
Qed.

Lemma ServerB_tools_need_token tok backend args w :
  token_set tok = false ->
  ServerB.get_file tok backend args w =
    (Throw (Error "FIGMA_ACCESS_TOKEN mangler i environment variables"), w) /\
  ServerB.export_node tok backend args w =
    (Throw (Error "FIGMA_ACCESS_TOKEN mangler i environment variables"), w).
Proof.
  intros H. unfold ServerB.get_file, ServerB.export_node, bind.
  rewrite !ServerB_figma_run, H. split; reflexivity.
Qed.

Lemma images_entry_world data nodeId w : snd (images_entry data nodeId w) = w.
Proof.
  unfold images_entry.
  destruct data; try reflexivity;
    destruct (get _ "images") as [[]|]; reflexivity.
Qed.

(** C1.  In [src/api/server.ts], lines 1-62, the helper has no guard: with
    the token absent a tool call still sends its request to the backend,
    with the header value [undefined], whatever the backend and the
    arguments. *)
Theorem ServerA_fetches_without_token
  (backend : Backend) (args : json) (w : World) :
  fetch_log (snd (ServerA.get_file None backend args w)) =
    (fetch_log w ++
     [mkRequest (new_URL ("https://api.figma.com/v1/files/" ++
                          ToString (get args "fileKey")))
                [("X-Figma-Token", "undefined")]])%list /\
  fetch_log (snd (ServerA.export_node None backend args w)) =
    (fetch_log w ++
     [figma_request None ("images/" ++ ToString (get args "fileKey"))
                    (export_params args)])%list.
Proof.
  split.
  - unfold ServerA.get_file, bind. rewrite ServerA_figma_run.
    pose proof (figma_sends_log None backend
                  ("files/" ++ ToString (get args "fileKey")) None w) as H.
    destruct (figma_sends _ _ _ _ _) as [[data|e] w']; exact H.
  - unfold ServerA.export_node, bind. rewrite ServerA_figma_run.
    pose proof (figma_sends_log None backend
                  ("images/" ++ ToString (get args "fileKey"))
                  (export_params args) w) as H.
    unfold export_params in *.
    destruct (figma_sends _ _ _ _ _) as [[data|e] w']; [|exact H].
    simpl in H.
    pose proof (images_entry_world data (get args "nodeId") w') as Hw.
    destruct (images_entry data (get args "nodeId") w') as [[url|e] w''];
      simpl in Hw; subst w''; [|exact H].
    destruct (truthy url); exact H.
Qed.

Example ServerA_get_file_without_token :
  fetch_log (snd (ServerA.get_file None (stub (mkResponse 403 "Forbidden"))
                    (JObj [("fileKey", JStr "abc123")]) fresh_world)) =
  [mkRequest (mkURL "https://api.figma.com/v1/files/abc123" [])
             [("X-Figma-Token", "undefined")]].
Proof. reflexivity. Qed.





Lemma get_file_after_figma (gap : nat) (c : M json) (w : World) (data : json) :
  fst (c w) = Return data ->
  fst (bind c (fun data =>
         ret (mkResult [mkItem "json" (Some (JStr (JSON_stringify gap data)))])) w)
    = Return (mkResult [mkItem "json" (Some (JStr (JSON_stringify gap data)))]) /\
  snd (bind c (fun data =>
         ret (mkResult [mkItem "json" (Some (JStr (JSON_stringify gap data)))])) w)
    = snd (c w).
Proof.
  unfold bind. destruct (c w) as [[d|e] w']; simpl; [|discriminate].
  intros [= ->]. split; reflexivity.
Qed.



(** C9.  Two identical [get-file] calls, one after the other, for which the
    backend call returns the same document both times return the same
    payload, character for character. *)
Theorem get_file_repeats_payload
  (tok : option string) (backend : Backend) (args : json) (w : World)
  (fileKey : string) (data : json) :
  get args "fileKey" = Some (JStr fileKey) ->
  (let first := Sse.get_file tok backend args w in
   let second := Sse.get_file tok backend args (snd first) in
   fst (Sse.figma tok backend ("files/" ++ fileKey) None w) = Return data ->
   fst (Sse.figma tok backend ("files/" ++ fileKey) None (snd first)) = Return data ->
   exists payload,
     fst first = Return (mkResult [mkItem "json" (Some (JStr payload))]) /\
     fst second = Return (mkResult [mkItem "json" (Some (JStr payload))])) /\
  (let first := ServerB.get_file tok backend args w in
   let second := ServerB.get_file tok backend args (snd first) in
   fst (ServerB.figma tok backend ("files/" ++ fileKey) None w) = Return data ->
   fst (ServerB.figma tok backend ("files/" ++ fileKey) None (snd first)) = Return data ->
   exists payload,
     fst first = Return (mkResult [mkItem "json" (Some (JStr payload))]) /\
     fst second = Return (mkResult [mkItem "json" (Some (JStr payload))])).
Proof.
  intros Hkey.
  unfold Sse.get_file, ServerB.get_file.
  rewrite Hkey. cbn [ToString ToString_json].
  split; cbv zeta; intros H1 H2;
    eexists; split;
    [ apply (get_file_after_figma _ _ _ _ H1)
    | apply (get_file_after_figma _ _ _ _ H2)
    | apply (get_file_after_figma _ _ _ _ H1)
    | apply (get_file_after_figma _ _ _ _ H2) ].
Qed.

Lemma get_file_repeats_payload_witness :
  exists payload,
    let backend :=
      scripted [mkResponse 200 (lit "{'name':'A','nodes':[1,2]}")]
               (mkResponse 200 (lit "{ 'name' : 'A',~  'nodes' : [ 1, 2 ] }")) in
    let args := JObj [("fileKey", JStr "abc123")] in
    let first := Sse.get_file (Some "figd_token") backend args fresh_world in
    let second := Sse.get_file (Some "figd_token") backend args (snd first) in
    fst first = Return (mkResult [mkItem "json" (Some (JStr payload))]) /\
    fst second = Return (mkResult [mkItem "json" (Some (JStr payload))]).
Proof.
  apply (proj1 (get_file_repeats_payload (Some "figd_token")
           (scripted [mkResponse 200 (lit "{'name':'A','nodes':[1,2]}")]
                     (mkResponse 200 (lit "{ 'name' : 'A',~  'nodes' : [ 1, 2 ] }")))
           (JObj [("fileKey", JStr "abc123")]) fresh_world "abc123"
           (JObj [("name", JStr "A");
                  ("nodes", JArr [JNum (number_of_N 1); JNum (number_of_N 2)])])
           eq_refl) eq_refl eq_refl).
Defined.

(* ================================================================== *)
(** * Where the token goes *)
(* ================================================================== *)







(* ================================================================== *)
(** * The HTTP handler *)
(* ================================================================== *)




(** C2, at an unparsable body.  [JSON.parse] runs before the [try] block:
    a POST whose body is a string that is not JSON makes the handler throw
    the [SyntaxError]; no status is set, nothing is written and the
    response is not ended, in both files that have the [try] block. *)
Theorem post_unparsable_body_is_not_answered
  (tok : option string) (backend : Backend)
  (handleJSON : Server -> jsval -> M json) (s : string) :
  JSON_parse s = None ->
  let req := mkReq (Some "POST") (Some (JStr s)) in
  let run := Sse.handler tok backend handleJSON req fresh_world in
  let runB := ServerB.handler tok backend handleJSON req fresh_world in
  (fst run = Throw (SyntaxError "Unexpected token in JSON") /\
   res_chunks (snd run) = [] /\ res_ended (snd run) = false /\
   res_statusCode (snd run) <> 400%N) /\
  (fst runB = Throw (SyntaxError "Unexpected token in JSON") /\
   res_chunks (snd runB) = [] /\ res_ended (snd runB) = false /\
   res_statusCode (snd runB) <> 400%N).
Proof.
  intros H req run runB. subst run runB req.
  unfold Sse.handler, ServerB.handler, bind, parse_body, JSON_parse_or_throw.
  cbn [body method_is method String.eqb Ascii.eqb Bool.eqb].
  rewrite H. cbn. repeat split; discriminate.
Qed.

Lemma post_unparsable_body_is_not_answered_witness :
  fst (Sse.handler (Some "figd_token") (stub (mkResponse 200 "{}"))
         Sdk.handleJSON (mkReq (Some "POST") (Some (JStr "{not json")))
         fresh_world)
  = Throw (SyntaxError "Unexpected token in JSON").
Proof.
  apply (post_unparsable_body_is_not_answered (Some "figd_token")
           (stub (mkResponse 200 "{}")) Sdk.handleJSON "{not json" eq_refl).
Defined.

(** A missing body is answered with 400 and an [error] field, without a
    call of [handleJSON]. *)
Lemma post_missing_body_is_400
  (tok : option string) (backend : Backend)
  (handleJSON : Server -> jsval -> M json) (req : VercelRequest) (b : jsval) :
  method req = Some "POST" ->
  parse_body req = ret b ->
  truthy b = false ->
  let w := snd (Sse.handler tok backend handleJSON req fresh_world) in
  res_statusCode w = 400%N /\
  res_chunks w = [JSON_stringify 0 (JObj [("error", JStr "Missing JSON body")])] /\
  fetch_log w = [].
Proof.
  intros Hm Hb Ht w. subst w.
  unfold Sse.handler, method_is. rewrite Hm, Hb.
  unfold bind, ret. cbn [String.eqb Ascii.eqb Bool.eqb]. rewrite Ht.
  repeat split.
Qed.

(** Whatever [handleJSON] throws is caught and answered with 500 and the
    body [{error: message}]. *)
Lemma post_failure_is_500
  (tok : option string) (backend : Backend)
  (handleJSON : Server -> jsval -> M json) (req : VercelRequest) (b : jsval)
  (e : exn) (w1 : World) :
  method req = Some "POST" ->
  parse_body req = ret b ->
  truthy b = true ->
  handleJSON (Sse.server tok backend) b (snd (Sse.cors fresh_world)) = (Throw e, w1) ->
  res_ended w1 = false ->
  let run := Sse.handler tok backend handleJSON req fresh_world in
  fst run = Return tt /\
  res_statusCode (snd run) = 500%N /\
  res_chunks (snd run) =
    (res_chunks w1 ++ [JSON_stringify 0 (JObj [("error", JStr (error_text e))])])%list /\
  res_ended (snd run) = true.
Proof.
  intros Hm Hb Ht Hh Hend run. subst run.
  destruct w1 as [fl co sc hd ch en nw tm nt ls]. simpl in Hend. subst en.
  unfold Sse.handler, method_is. rewrite Hm, Hb.
  cbn -[Sse.server truthy] in Hh |- *. rewrite Ht.
  cbn -[Sse.server truthy]. unfold try_catch, bind. rewrite Hh.
  cbn. repeat split.
Qed.

(* ================================================================== *)
(** * The event stream *)
(* ================================================================== *)

Lemma div_step_hit (n : N) :
  (30000 * (n / 30000 + 1) <= n + 1)%N -> ((n + 1) / 30000 = n / 30000 + 1)%N.
Proof.
  intros H.
  pose proof (N.div_mod n 30000 ltac:(discriminate)) as Hd.
  pose proof (N.mod_lt n 30000 ltac:(discriminate)) as Hm.
  symmetry. apply N.div_unique with (r := 0%N); lia.
Qed.

Lemma div_step_miss (n : N) :
  (n + 1 < 30000 * (n / 30000 + 1))%N -> ((n + 1) / 30000 = n / 30000)%N.
Proof.
  intros H.
  pose proof (N.div_mod n 30000 ltac:(discriminate)) as Hd.
  pose proof (N.mod_lt n 30000 ltac:(discriminate)) as Hm.
  symmetry. apply N.div_unique with (r := (n mod 30000 + 1)%N); lia.
Qed.

Lemma sse_events_hit (n : N) :
  ((n + 1) / 30000 = n / 30000 + 1)%N ->
  sse_events (n + 1) = (sse_events n ++ [SSE_PING])%list.
Proof.
  intros H. unfold sse_events. rewrite H, N2Nat.inj_add.
  change (N.to_nat 1) with 1. rewrite Nat.add_1_r.
  cbn [repeat app]. rewrite repeat_cons. reflexivity.
Qed.

(** A GET opens the stream: the first event is written, the keep-alive
    interval is set to 30000 ms and the [close] listener is registered. *)
Lemma Sse_get_opens_stream tok backend handleJSON b :
  Sse.handler tok backend handleJSON (mkReq (Some "GET") b) fresh_world
  = (Return tt, sse_open 0).
Proof. reflexivity. Qed.

Lemma step_open_tick (n : N) : step (sse_open n) Tick = sse_open (n + 1).
Proof.
  unfold step, sse_open, advance, fire. cbn [timers map timer_id fold_left find
    Nat.eqb now timer_due timer_callback].
  destruct (N.leb_spec (30000 * (n / 30000 + 1)) (n + 1)) as [H|H].
  - pose proof (div_step_hit n H) as Hq.
    unfold run_closure, res_write, modify, reschedule.
    cbn [snd res_ended timers map timer_id Nat.eqb timer_delay timer_due
         timer_callback fetch_log console res_statusCode res_headers res_chunks
         now next_timer listeners].
    rewrite (sse_events_hit n Hq), Hq.
    replace (30000 * (n / 30000 + 1) + 30000)%N
      with (30000 * (n / 30000 + 1 + 1))%N by lia.
    reflexivity.
  - rewrite (div_step_miss n H). unfold sse_events.
    rewrite (div_step_miss n H). reflexivity.
Qed.

Lemma step_open_close (n : N) : step (sse_open n) ClientCloses = sse_closed n 0.
Proof.
  unfold step, sse_open, sse_closed. cbn. rewrite N.add_0_r. reflexivity.
Qed.

Lemma step_closed (n m : N) (e : event) :
  exists m', step (sse_closed n m) e = sse_closed n m'.
Proof.
  destruct e.
  - exists (m + 1)%N. unfold step, sse_closed, advance. cbn.
    rewrite N.add_assoc. reflexivity.
  - exists m. reflexivity.
Qed.

Lemma run_events_closed (evs : list event) (n m : N) :
  exists m', run_events evs (sse_closed n m) = sse_closed n m'.
Proof.
  revert m. induction evs as [|e evs IH]; intros m; simpl.
  - eauto.
  - destruct (step_closed n m e) as [m' ->]. apply IH.
Qed.

Lemma run_events_open (evs : list event) (n : N) :
  if closes evs
  then exists m, run_events evs (sse_open n) = sse_closed (n + ms_before_close evs) m
  else run_events evs (sse_open n) = sse_open (n + ms_before_close evs).
Proof.
  revert n. induction evs as [|[|] evs IH]; intros n.
  - simpl. rewrite N.add_0_r. reflexivity.
  - cbn [closes existsb orb run_events fold_left ms_before_close].
    rewrite step_open_tick. specialize (IH (n + 1)%N).
    fold (run_events evs (sse_open (n + 1))). fold (closes evs).
    replace (n + (1 + ms_before_close evs))%N
      with (n + 1 + ms_before_close evs)%N by lia.
    exact IH.
  - cbn [closes existsb orb run_events fold_left ms_before_close].
    rewrite step_open_close, N.add_0_r.
    apply (run_events_closed evs n 0).
Qed.

(** C6.  After a GET, whatever ticks of the clock and whatever disconnects
    follow: the first chunk written is the [initialized] notification,
    every later chunk is the [ping] notification, one for each full 30000
    ms that passed before the client closed the connection; the interval
    has the delay 30000 while the client is connected; once the client has
    closed, no interval is left, the response is ended, and what was
    written no longer changes. *)
Theorem sse_stream_lifecycle
  (tok : option string) (backend : Backend)
  (handleJSON : Server -> jsval -> M json) (b : jsval) (evs : list event) :
  let opened := snd (Sse.handler tok backend handleJSON (mkReq (Some "GET") b)
                       fresh_world) in
  let w := run_events evs opened in
  res_chunks w =
    lit "data: {'jsonrpc':'2.0','method':'initialized','params':{}}~~" ::
    repeat (lit "data: {'jsonrpc':'2.0','method':'ping'}~~")
           (N.to_nat (ms_before_close evs / 30000)) /\
  (if closes evs
   then timers w = [] /\ res_ended w = true /\
        forall later, res_chunks (run_events later w) = res_chunks w
   else map timer_delay (timers w) = [30000%N] /\
        map timer_callback (timers w) = [KeepAlivePing] /\
        res_ended w = false).
Proof.
  intros opened w. subst opened w. rewrite Sse_get_opens_stream.
  cbn [snd]. pose proof (run_events_open evs 0) as H.
  destruct (closes evs).
  - destruct H as [m ->]. rewrite N.add_0_l. repeat split.
    intros later. destruct (run_events_closed later (ms_before_close evs) m)
      as [m' ->]. reflexivity.
  - rewrite H, N.add_0_l. repeat split.
Qed.

Example sse_one_minute_then_close :
  let opened := snd (Sse.handler None (stub (mkResponse 200 "{}")) Sdk.handleJSON
                       (mkReq (Some "GET") None) fresh_world) in
  let w := run_events (repeat Tick (N.to_nat 60000) ++ ClientCloses ::
                       repeat Tick (N.to_nat 45000)) opened in
  res_chunks w =
    [lit "data: {'jsonrpc':'2.0','method':'initialized','params':{}}~~";
     lit "data: {'jsonrpc':'2.0','method':'ping'}~~";
     lit "data: {'jsonrpc':'2.0','method':'ping'}~~"] /\
  timers w = [] /\ res_ended w = true.
Proof. vm_compute. repeat split. Qed.

(* ================================================================== *)
(** * Validation of the tool arguments *)
(* ================================================================== *)

Lemma parse_shape_issue parse (shape : list (string * ZodType)) k t issues :
  In (k, t) shape -> parse k t = inl issues ->
  exists all, parse_shape parse shape = inl all /\ incl issues all.
Proof.
  induction shape as [|[k' t'] shape IH]; simpl; [tauto|].
  intros [E|Hin] Hp.
  - injection E as -> ->. rewrite Hp.
    destruct (parse_shape parse shape) as [b|xs]; eexists; split;
      try reflexivity; [apply incl_appl|]; apply incl_refl.
  - destruct (IH Hin Hp) as (all & -> & Hincl).
    destruct (parse k' t') as [a|x]; eexists; split; try reflexivity;
      [apply incl_appr|]; exact Hincl.
Qed.

Lemma number_ltb_lt (a b : number) :
  number_ltb a b = true <-> (number_to_Q a < number_to_Q b)%Q.
Proof.
  unfold number_ltb. rewrite negb_true_iff. split.
  - intros H. apply Qnot_le_lt. intros Hle.
    apply Qle_bool_iff in Hle. congruence.
  - intros H. destruct (Qle_bool (number_to_Q b) (number_to_Q a)) eqn:E;
      [|reflexivity].
    apply Qle_bool_iff in E. exfalso. exact (Qlt_not_le _ _ H E).
Qed.

Lemma number_ltb_ge (a b : number) :
  number_ltb a b = false <-> (number_to_Q b <= number_to_Q a)%Q.
Proof.
  unfold number_ltb. rewrite negb_false_iff. apply Qle_bool_iff.
Qed.

Lemma scale_out_of_range (n : number) :
  (number_to_Q n < 1 # 10)%Q \/ (4 < number_to_Q n)%Q ->
  exists i rest,
    safeParse (z_default (z_max (z_min z_number (mkNumber false 0 (D1 Nil)))
                                (number_of_N 4))
                         (JNum (number_of_N 1)))
              ["scale"] (Some (JNum n)) = inl (i :: rest) /\
    issue_path i = ["scale"].
Proof.
  intros H.
  cbn [z_default z_max z_min z_number List.app safeParse flat_map check_issues].
  destruct (number_ltb n (mkNumber false 0 (D1 Nil))) eqn:Elo.
  - cbn [List.app]. destruct (number_ltb (number_of_N 4) n);
      do 2 eexists; split; reflexivity.
  - destruct (number_ltb (number_of_N 4) n) eqn:Ehi.
    + do 2 eexists. split; reflexivity.
    + exfalso. apply number_ltb_ge in Elo, Ehi. destruct H as [H|H].
      * exact (Qlt_not_le _ _ H Elo).
      * exact (Qlt_not_le _ _ H Ehi).
Qed.

Lemma scale_in_range (n : number) :
  (1 # 10 <= number_to_Q n)%Q -> (number_to_Q n <= 4)%Q ->
  safeParse (z_default (z_max (z_min z_number (mkNumber false 0 (D1 Nil)))
                              (number_of_N 4))
                       (JNum (number_of_N 1)))
            ["scale"] (Some (JNum n)) = inr (JNum n).
Proof.
  intros Hlo Hhi.
  cbn [z_default z_max z_min z_number List.app safeParse flat_map check_issues].
  rewrite (proj2 (number_ltb_ge n (mkNumber false 0 (D1 Nil))) Hlo).
  rewrite (proj2 (number_ltb_ge (number_of_N 4) n) Hhi). reflexivity.
Qed.

Lemma format_not_listed (v : json) :
  v <> JStr "png" -> v <> JStr "svg" ->
  exists i,
    safeParse (z_default (z_enum ["png"; "svg"]) (JStr "png"))
              ["format"] (Some v) = inl [i] /\
    issue_path i = ["format"].
Proof.
  intros Hp Hs. cbn [z_default z_enum safeParse].
  destruct v as [| | |s| |]; try (eexists; split; reflexivity).
  cbn [existsb].
  destruct (String.eqb s "png") eqn:E1; [apply String.eqb_eq in E1; congruence|].
  destruct (String.eqb s "svg") eqn:E2; [apply String.eqb_eq in E2; congruence|].
  eexists; split; reflexivity.
Qed.

Lemma invoke_export_node tok backend idv a w :
  Sdk.invoke (Sse.server tok backend) (mkInvocation idv "export-node" a) w =
    match safeParse export_node_schema [] a with
    | inl issues => (Throw (ZodError issues), w)
    | inr args => Sse.export_node tok backend args w
    end /\
  Sdk.invoke (ServerB.server tok backend) (mkInvocation idv "export-node" a) w =
    match safeParse export_node_schema [] a with
    | inl issues => (Throw (ZodError issues), w)
    | inr args => ServerB.export_node tok backend args w
    end.
Proof.
  split; unfold Sdk.invoke; cbn [toolName arguments].
  - change (find _ (tools (Sse.server tok backend)))
      with (Some (Sse.export_node_tool, Sse.export_node tok backend)).
    cbn [inputSchema Sse.export_node_tool].
    destruct (safeParse export_node_schema [] a); reflexivity.
  - change (find _ (tools (ServerB.server tok backend)))
      with (Some (ServerB.export_node_tool, ServerB.export_node tok backend)).
    cbn [inputSchema ServerB.export_node_tool].
    destruct (safeParse export_node_schema [] a); reflexivity.
Qed.

(** C5.  An [export-node] invocation is validated by the invoker before
    its handler runs.  A [scale] below 0.1 or above 4, or a [format] other
    than [png] and [svg], makes the invocation throw a validation error
    with an issue whose path is that field, and the world is left as it
    was: no request has gone to the backend.  With valid arguments, the
    handler is run on the arguments in which an omitted [format] is [png]
    and an omitted [scale] is 1. *)
Theorem export_node_validation
  (tok : option string) (backend : Backend) (idv : jsval)
  (fields : list (string * json)) (w : World) :
  let rq := mkInvocation idv "export-node" (Some (JObj fields)) in
  let rejected field :=
    exists issues,
      (exists i, In i issues /\ issue_path i = [field]) /\
      Sdk.invoke (Sse.server tok backend) rq w = (Throw (ZodError issues), w) /\
      Sdk.invoke (ServerB.server tok backend) rq w = (Throw (ZodError issues), w) in
  (forall n, lookup "scale" fields = Some (JNum n) ->
             (number_to_Q n < 1 # 10)%Q \/ (4 < number_to_Q n)%Q ->
             rejected "scale") /\
  (forall v, lookup "format" fields = Some v ->
             v <> JStr "png" -> v <> JStr "svg" ->
             rejected "format") /\
  (forall fileKey nodeId format scale,
     lookup "fileKey" fields = Some (JStr fileKey) ->
     lookup "nodeId" fields = Some (JStr nodeId) ->
     lookup "format" fields = option_map JStr format ->
     (format = None \/ format = Some "png" \/ format = Some "svg") ->
     lookup "scale" fields = option_map JNum scale ->
     (forall n, scale = Some n ->
                (1 # 10 <= number_to_Q n)%Q /\ (number_to_Q n <= 4)%Q) ->
     let args :=
       JObj [("fileKey", JStr fileKey);
             ("nodeId", JStr nodeId);
             ("format", JStr (match format with Some f => f | None => "png" end));
             ("scale", JNum (match scale with Some n => n | None => number_of_N 1 end))] in
     Sdk.invoke (Sse.server tok backend) rq w = Sse.export_node tok backend args w /\
     Sdk.invoke (ServerB.server tok backend) rq w = ServerB.export_node tok backend args w).
Proof.
  intros rq rejected. subst rq rejected.
  destruct (invoke_export_node tok backend idv (Some (JObj fields)) w) as [-> ->].
  assert (Hobj : forall k t issues,
    In (k, t) [("fileKey", z_string); ("nodeId", z_string);
               ("format", z_default (z_enum ["png"; "svg"]) (JStr "png"));
               ("scale", z_default (z_max (z_min z_number (mkNumber false 0 (D1 Nil)))
                                          (number_of_N 4))
                                   (JNum (number_of_N 1)))] ->
    safeParse t [k] (lookup k fields) = inl issues ->
    exists all, safeParse export_node_schema [] (Some (JObj fields)) = inl all /\
                incl issues all).
  { intros k t issues Hin Hp.
    unfold export_node_schema, z_object. cbn [safeParse].
    destruct (parse_shape_issue
                (fun k t' => safeParse t' ([] ++ [k]) (lookup k fields))
                _ k t issues Hin Hp) as (all & -> & Hincl).
    eauto. }
  split; [|split].
  - intros n Hn Hr.
    destruct (scale_out_of_range n Hr) as (i & rest & Hp & Hi).
    rewrite <- Hn in Hp.
    destruct (Hobj "scale" _ _ ltac:(simpl; tauto) Hp) as (all & -> & Hincl).
    exists all. repeat split. exists i. split; [apply Hincl; left; reflexivity|exact Hi].
  - intros v Hv Hp Hs.
    destruct (format_not_listed v Hp Hs) as (i & Hq & Hi).
    rewrite <- Hv in Hq.
    destruct (Hobj "format" _ _ ltac:(simpl; tauto) Hq) as (all & -> & Hincl).
    exists all. repeat split. exists i. split; [apply Hincl; left; reflexivity|exact Hi].
  - intros fileKey nodeId format scale Hk Hn Hf Hfv Hs Hsv.
    assert (Hparse : safeParse export_node_schema [] (Some (JObj fields)) =
      inr (JObj [("fileKey", JStr fileKey);
                 ("nodeId", JStr nodeId);
                 ("format", JStr (match format with Some f => f | None => "png" end));
                 ("scale", JNum (match scale with Some n => n | None => number_of_N 1 end))])).
    { unfold export_node_schema, z_object.
      cbn [safeParse parse_shape List.app z_string]. rewrite Hk, Hn, Hf, Hs.
      assert (Hfmt : safeParse (z_default (z_enum ["png"; "svg"]) (JStr "png"))
                       ["format"] (option_map JStr format)
                     = inr (JStr (match format with Some f => f | None => "png" end))).
      { destruct Hfv as [->|[->| ->]]; reflexivity. }
      assert (Hscl : safeParse (z_default (z_max (z_min z_number (mkNumber false 0 (D1 Nil)))
                                                 (number_of_N 4))
                                          (JNum (number_of_N 1)))
                       ["scale"] (option_map JNum scale)
                     = inr (JNum (match scale with Some n => n | None => number_of_N 1 end))).
      { destruct scale as [n|]; [|reflexivity].
        destruct (Hsv n eq_refl) as [Hlo Hhi]. apply scale_in_range; assumption. }
      rewrite Hfmt, Hscl. reflexivity. }
    rewrite Hparse. split; reflexivity.
Qed.

Lemma export_node_validation_witness :
  let args := [("fileKey", JStr "abc123"); ("nodeId", JStr "1:2");
               ("scale", JNum (number_of_N 8))] in
  exists issues,
    (exists i, In i issues /\ issue_path i = ["scale"]) /\
    Sdk.invoke (Sse.server (Some "figd_token") (stub (mkResponse 200 "{}")))
               (mkInvocation (Some (JNum (number_of_N 1))) "export-node"
                             (Some (JObj args))) fresh_world
    = (Throw (ZodError issues), fresh_world).
Proof.
  destruct (proj1 (export_node_validation (Some "figd_token")
                     (stub (mkResponse 200 "{}")) (Some (JNum (number_of_N 1)))
                     [("fileKey", JStr "abc123"); ("nodeId", JStr "1:2");
                      ("scale", JNum (number_of_N 8))] fresh_world)
                  (number_of_N 8) eq_refl (or_intror eq_refl))
    as (issues & Hi & Hs & _).
  exists issues. split; assumption.
Defined.

(* ================================================================== *)
(** * Requests end to end *)
(* ================================================================== *)

Example post_get_file_answers_200 :
  let backend := stub (mkResponse 200 (lit "{'name':'Landing','version':'7'}")) in
  let envelope :=
    lit "{'jsonrpc':'2.0','id':1,'method':'tools/call','params':{'name':'get-file','arguments':{'fileKey':'abc123'}}}" in
  let w := snd (Sse.handler (Some "figd_token") backend Sdk.handleJSON
                  (mkReq (Some "POST") (Some (JStr envelope))) fresh_world) in
  res_statusCode w = 200%N /\
  option_map (fun reply => get reply "id")
             (JSON_parse (String.concat EmptyString (res_chunks w)))
    = Some (Some (JNum (number_of_N 1))) /\
  fetch_log w = [mkRequest (mkURL "https://api.figma.com/v1/files/abc123" [])
                           [("X-Figma-Token", "figd_token")]].
Proof. vm_compute. repeat split. Qed.

Example post_without_token_answers_500 :
  let backend := stub (mkResponse 200 (lit "{'name':'Landing','version':'7'}")) in
  let envelope :=
    lit "{'jsonrpc':'2.0','id':1,'method':'tools/call','params':{'name':'get-file','arguments':{'fileKey':'abc123'}}}" in
  let w := snd (Sse.handler None backend Sdk.handleJSON
                  (mkReq (Some "POST") (Some (JStr envelope))) fresh_world) in
  res_statusCode w = 500%N /\
  res_chunks w = [lit "{'error':'FIGMA_ACCESS_TOKEN mangler i environment variables'}"] /\
  fetch_log w = [].
Proof. vm_compute. repeat split. Qed.

Example post_scale_out_of_range_answers_500 :
  let backend := stub (mkResponse 200 (lit "{'images':{'1:2':'https://img.example/1.png'}}")) in
  let envelope :=
    lit "{'jsonrpc':'2.0','id':2,'method':'tools/call','params':{'name':'export-node','arguments':{'fileKey':'abc123','nodeId':'1:2','scale':4.5}}}" in
  let w := snd (Sse.handler (Some "figd_token") backend Sdk.handleJSON
                  (mkReq (Some "POST") (Some (JStr envelope))) fresh_world) in
  res_statusCode w = 500%N /\ fetch_log w = [].
Proof. vm_compute. repeat split. Qed.

Example post_export_node_defaults :
  let backend := stub (mkResponse 200 (lit "{'images':{'1:2':'https://img.example/1.png'}}")) in
  let envelope :=
    JObj [("jsonrpc", JStr "2.0"); ("id", JNum (number_of_N 3));
          ("method", JStr "tools/call");
          ("params", JObj [("name", JStr "export-node");
                           ("arguments", JObj [("fileKey", JStr "abc123");
                                               ("nodeId", JStr "1:2")])])] in
  let w := snd (Sse.handler (Some "figd_token") backend Sdk.handleJSON
                  (mkReq (Some "POST") (Some envelope)) fresh_world) in
  res_statusCode w = 200%N /\
  res_chunks w =
    [lit "{'jsonrpc':'2.0','id':3,'result':{'content':[{'type':'text','text':'https://img.example/1.png'}]}}"] /\
  fetch_log w =
    [mkRequest (mkURL "https://api.figma.com/v1/images/abc123"
                      [("ids", "1:2"); ("format", "png"); ("scale", "1")])
               [("X-Figma-Token", "figd_token")]].
Proof. vm_compute. repeat split. Qed.

Example post_unknown_tool_answers_500 :
  let envelope :=
    JObj [("id", JNum (number_of_N 4));
          ("params", JObj [("name", JStr "delete-file")])] in
  let w := snd (ServerB.handler (Some "figd_token") (stub (mkResponse 200 "{}"))
                  Sdk.handleJSON (mkReq (Some "POST") (Some envelope)) fresh_world) in
  res_statusCode w = 500%N /\
  res_chunks w = [lit "{'error':'Unknown tool: delete-file'}"] /\
  fetch_log w = [].
Proof. vm_compute. repeat split. Qed.

(* ================================================================== *)
(** * More on the Figma helper *)
(* ================================================================== *)

Lemma figma_sends_returns tok backend path params w data :
  fst (figma_sends tok backend path params w) = Return data <->
  exists r, backend (fetch_log w) (figma_request tok path params) = Responds r /\
            ok r = true /\ JSON_parse (body_text r) = Some data.
Proof.
  unfold figma_sends. split.
  - destruct (backend _ _) as [r|e]; [|discriminate].
    destruct (ok r) eqn:Hok; [|discriminate].
    destruct (JSON_parse (body_text r)) as [v|] eqn:E; [|discriminate].
    intros [= <-]. eauto.
  - intros (r & -> & -> & ->). reflexivity.
Qed.

(** X1.  The helper returns a document exactly when the token is set, the
    backend answers with a status in 200-299 and the body of the answer is
    JSON text for that document; in [src/api/server.ts], lines 12-18, the
    token plays no part. *)
Theorem figma_returns_iff
  (tok : option string) (backend : Backend) (path : string)
  (params : option (list (string * string))) (w : World) (data : json) :
  let answered :=
    exists r, backend (fetch_log w) (figma_request tok path params) = Responds r /\
              ok r = true /\ JSON_parse (body_text r) = Some data in
  (fst (Sse.figma tok backend path params w) = Return data <->
   token_set tok = true /\ answered) /\
  (fst (ServerB.figma tok backend path params w) = Return data <->
   token_set tok = true /\ answered) /\
  (fst (ServerA.figma tok backend path params w) = Return data <-> answered).
Proof.
  intros answered. subst answered.
  rewrite Sse_figma_run, ServerB_figma_run, ServerA_figma_run.
  pose proof (figma_sends_returns tok backend path params w data) as H.
  destruct (token_set tok); cbn [fst]; repeat split;
    try tauto; try (intros; discriminate); intros [Hf _]; discriminate.
Qed.



(** X3.  The three copies of the helper are the same function once a token
    is set: same outcome and same world for every path, parameter map and
    backend. *)
Theorem figma_copies_agree
  (tok : option string) (backend : Backend) (path : string)
  (params : option (list (string * string))) (w : World) :
  token_set tok = true ->
  Sse.figma tok backend path params w = ServerB.figma tok backend path params w /\
  ServerA.figma tok backend path params w = ServerB.figma tok backend path params w.
Proof.
  intros Htok.
  rewrite Sse_figma_run, ServerB_figma_run, ServerA_figma_run, Htok.
  split; reflexivity.
Qed.

Lemma figma_copies_agree_witness :
  ServerA.figma (Some "figd_token") (stub (mkResponse 503 "busy"))
                "files/abc123" None fresh_world
  = ServerB.figma (Some "figd_token") (stub (mkResponse 503 "busy"))
                  "files/abc123" None fresh_world.
Proof.
  apply (proj2 (figma_copies_agree (Some "figd_token") (stub (mkResponse 503 "busy"))
                  "files/abc123" None fresh_world eq_refl)).
Defined.




(* ================================================================== *)
(** * More on the tool handlers *)
(* ================================================================== *)

Lemma figma_sends_world tok backend path params w :
  snd (figma_sends tok backend path params w) =
  log_request (figma_request tok path params) w.
Proof.
  unfold figma_sends.
  destruct (backend _ _) as [r|e]; [|reflexivity].
  destruct (ok r); [|reflexivity].
  destruct (JSON_parse (body_text r)); reflexivity.
Qed.

Lemma bind_ret_world {A B} (c : M A) (f : A -> B) (w : World) :
  snd (bind c (fun a => ret (f a)) w) = snd (c w).
Proof. unfold bind, ret. destruct (c w) as [[a|e] w']; reflexivity. Qed.

Lemma export_node_world (err : string) (c : M json) (nodeId : jsval) (w : World) :
  snd (bind c (fun data =>
         bind (images_entry data nodeId) (fun url =>
           if negb (truthy url) then throw (Error err)
           else ret (mkResult [mkItem "text" url]))) w)
  = snd (c w).
Proof.
  unfold bind. destruct (c w) as [[data|e] w']; [|reflexivity].
  pose proof (images_entry_world data nodeId w') as Hw.
  destruct (images_entry data nodeId w') as [[url|e] w'']; simpl in Hw; subst w'';
    [|reflexivity].
  destruct (truthy url); reflexivity.
Qed.


Lemma bind_throws {A B} (c : M A) (k : A -> M B) (w : World) (e : exn) :
  fst (c w) = Throw e -> fst (bind c k w) = Throw e.
Proof.
  unfold bind. destruct (c w) as [[a|e'] w']; simpl; [discriminate|].
  intros [= ->]. reflexivity.
Qed.

(** X6.  An error of the helper passes through the tool handlers
    unchanged: when the backend call throws, [get-file] and [export-node]
    throw the same value and return nothing. *)
Theorem tools_pass_helper_errors
  (tok : option string) (backend : Backend) (args : json) (w : World) (e : exn) :
  (fst (Sse.figma tok backend ("files/" ++ ToString (get args "fileKey")) None w)
     = Throw e ->
   fst (Sse.get_file tok backend args w) = Throw e) /\
  (fst (Sse.figma tok backend ("images/" ++ ToString (get args "fileKey"))
          (export_params args) w) = Throw e ->
   fst (Sse.export_node tok backend args w) = Throw e) /\
  (fst (ServerB.figma tok backend ("files/" ++ ToString (get args "fileKey")) None w)
     = Throw e ->
   fst (ServerB.get_file tok backend args w) = Throw e) /\
  (fst (ServerB.figma tok backend ("images/" ++ ToString (get args "fileKey"))
          (export_params args) w) = Throw e ->
   fst (ServerB.export_node tok backend args w) = Throw e).
Proof.
  unfold Sse.get_file, Sse.export_node, ServerB.get_file, ServerB.export_node,
    export_params.
  repeat split; intros H; apply bind_throws; exact H.
Qed.

Lemma tools_pass_helper_errors_witness :
  fst (Sse.export_node (Some "figd_token") (stub (mkResponse 429 "Rate limit exceeded"))
         (JObj [("fileKey", JStr "abc123"); ("nodeId", JStr "1:2");
                ("format", JStr "png"); ("scale", JNum (number_of_N 2))])
         fresh_world)
  = Throw (Error "Figma 429: Rate limit exceeded").
Proof.
  apply (proj1 (proj2 (tools_pass_helper_errors (Some "figd_token")
           (stub (mkResponse 429 "Rate limit exceeded"))
           (JObj [("fileKey", JStr "abc123"); ("nodeId", JStr "1:2");
                  ("format", JStr "png"); ("scale", JNum (number_of_N 2))])
           fresh_world (Error "Figma 429: Rate limit exceeded"))) eq_refl).
Defined.

(** X7.  What [export-node] does with an answer that carries no image map.
    A document without an [images] field, or with [images: null], gives
    the no-image-URL error ([?.] stops at the missing map); the document
    [null] gives a [TypeError], since [data.images] is read without [?.].
    Both after the one request has been sent. *)
Theorem export_node_without_image_map
  (tok : option string) (backend : Backend) (args : json) (w : World)
  (r : Response) (data : json) :
  token_set tok = true ->
  backend (fetch_log w)
    (figma_request tok ("images/" ++ ToString (get args "fileKey"))
                   (export_params args)) = Responds r ->
  ok r = true ->
  JSON_parse (body_text r) = Some data ->
  (data <> JNull ->
   get data "images" = None \/ get data "images" = Some JNull ->
   fst (Sse.export_node tok backend args w) =
     Throw (Error "Ingen billed-URL retur fra Figma") /\
   fst (ServerA.export_node tok backend args w) =
     Throw (Error "Ingen billed-URL retur fra Figma") /\
   fst (ServerB.export_node tok backend args w) =
     Throw (Error "Ingen billed-URL retur fra Figma (tjek nodeId/fileKey)")) /\
  (data = JNull ->
   fst (Sse.export_node tok backend args w) =
     Throw (TypeError "Cannot read properties of null (reading 'images')") /\
   fst (ServerA.export_node tok backend args w) =
     Throw (TypeError "Cannot read properties of null (reading 'images')") /\
   fst (ServerB.export_node tok backend args w) =
     Throw (TypeError "Cannot read properties of null (reading 'images')")).
Proof.
  intros Htok Hb Hok Hparse.
  assert (Hrun : figma_sends tok backend
                   ("images/" ++ ToString (get args "fileKey"))
                   (export_params args) w
                 = (Return data,
                    log_request (figma_request tok
                                   ("images/" ++ ToString (get args "fileKey"))
                                   (export_params args)) w)).
  { unfold figma_sends. rewrite Hb, Hok, Hparse. reflexivity. }
  unfold export_params in Hrun.
  unfold Sse.export_node, ServerA.export_node, ServerB.export_node, bind.
  rewrite ?Sse_figma_run, ?ServerB_figma_run, ?ServerA_figma_run, Htok, Hrun.
  unfold images_entry. split.
  - intros Hnn [Himg|Himg]; rewrite Himg;
      destruct data; try congruence; repeat split.
  - intros ->. repeat split.
Qed.

Lemma export_node_without_image_map_witness :
  fst (Sse.export_node (Some "figd_token")
         (stub (mkResponse 200 (lit "{'status':200,'err':null}")))
         (JObj [("fileKey", JStr "abc123"); ("nodeId", JStr "1:2");
                ("format", JStr "png"); ("scale", JNum (number_of_N 1))])
         fresh_world)
  = Throw (Error "Ingen billed-URL retur fra Figma").
Proof.
  apply (proj1 (export_node_without_image_map (Some "figd_token")
           (stub (mkResponse 200 (lit "{'status':200,'err':null}")))
           (JObj [("fileKey", JStr "abc123"); ("nodeId", JStr "1:2");
                  ("format", JStr "png"); ("scale", JNum (number_of_N 1))])
           fresh_world _ _ eq_refl eq_refl eq_refl eq_refl)
         ltac:(discriminate) (or_introl eq_refl)).
Defined.



(* ================================================================== *)
(** * More on the HTTP handlers *)
(* ================================================================== *)

(** X9.  An OPTIONS request is answered at once, in the two files that
    route by method: status 200, no body, the response ended, the three
    CORS headers set; the body of the request is not read, [handleJSON] is
    not called and nothing goes to the backend. *)
Theorem options_preflight
  (tok : option string) (backend : Backend)
  (handleJSON : Server -> jsval -> M json) (b : jsval) :
  let answered :=
    (Return tt,
     mkWorld [] [] 200
       [("Access-Control-Allow-Origin", "*");
        ("Access-Control-Allow-Methods", "POST, GET, OPTIONS");
        ("Access-Control-Allow-Headers", "Content-Type")]
       [] true 0 [] 0 []) in
  Sse.handler tok backend handleJSON (mkReq (Some "OPTIONS") b) fresh_world = answered /\
  ServerB.handler tok backend handleJSON (mkReq (Some "OPTIONS") b) fresh_world = answered.
Proof. split; reflexivity. Qed.

(** X10.  In [src/api/server.ts], lines 63-161, a GET is a health check:
    status 200 and the JSON body [{ok, server, env}] with
    [env = !!FIGMA_TOKEN], the response ended, no timer and no listener
    left behind, nothing sent to the backend. *)
Theorem ServerB_get_is_health_check
  (tok : option string) (backend : Backend)
  (handleJSON : Server -> jsval -> M json) (b : jsval) :
  let w := snd (ServerB.handler tok backend handleJSON (mkReq (Some "GET") b)
                  fresh_world) in
  res_statusCode w = 200%N /\
  res_chunks w =
    [JSON_stringify 0 (JObj [("ok", JBool true); ("server", JStr "figma-mcp");
                             ("env", JBool (token_set tok))])] /\
  res_ended w = true /\ timers w = [] /\ listeners w = [] /\ fetch_log w = [].
Proof. repeat split. Qed.



(** X12.  In [src/api/server.ts], lines 1-62, a failure is not answered:
    whatever the request's method, when [handleJSON] throws, the handler
    throws the same value and has set no status and written nothing of its
    own. *)
Theorem ServerA_failures_escape
  (tok : option string) (backend : Backend)
  (handleJSON : Server -> jsval -> M json) (req : VercelRequest) (b : jsval)
  (e : exn) (w w1 : World) :
  parse_body req = ret b ->
  handleJSON (ServerA.server tok backend) b w = (Throw e, w1) ->
  ServerA.handler tok backend handleJSON req w = (Throw e, w1).
Proof.
  intros Hb Hh. unfold ServerA.handler. rewrite Hb.
  unfold bind, ret. rewrite Hh. reflexivity.
Qed.

Lemma ServerA_failures_escape_witness :
  ServerA.handler None (stub (mkResponse 200 "{}")) Sdk.handleJSON
    (mkReq (Some "GET") None) fresh_world
  = (Throw (Error "Invalid request"), fresh_world).
Proof.
  apply (ServerA_failures_escape None (stub (mkResponse 200 "{}")) Sdk.handleJSON
           (mkReq (Some "GET") None) None (Error "Invalid request")
           fresh_world fresh_world eq_refl eq_refl).
Defined.

Lemma lookup_assign {A} (k k' : string) (v : A) (l : list (string * A)) :
  lookup k (assign k' v l) = if String.eqb k k' then Some v else lookup k l.
Proof.
  induction l as [|[k0 v0] l IH]; simpl.
  - destruct (String.eqb k k'); reflexivity.
  - destruct (String.eqb k' k0) eqn:E; simpl.
    + apply String.eqb_eq in E. subst k0.
      destruct (String.eqb k k'); reflexivity.
    + rewrite IH. destruct (String.eqb k k0) eqn:E0; [|reflexivity].
      apply String.eqb_eq in E0. subst k0.
      rewrite String.eqb_sym, E. reflexivity.
Qed.

Lemma error_body_parses (s : string) :
  JSON_parse (JSON_stringify 0 (JObj [("error", JStr s)])) =
  Some (JObj [("error", JStr s)]).
Proof. apply JSON_parse_stringify_gap. reflexivity. Qed.



(** X14.  What [handleJSON] throws is caught by the two files that have
    the [try] block and answered with status 500; the body is JSON text
    that parses to an object with the single field [error], holding
    [String(err.message || err)]. *)
Theorem thrown_errors_are_answered_500
  (tok : option string) (backend : Backend)
  (handleJSON : Server -> jsval -> M json) (req : VercelRequest) (b : jsval)
  (e : exn) (w1 : World) :
  method req = Some "POST" ->
  parse_body req = ret b ->
  truthy b = true ->
  res_ended w1 = false ->
  let answered run :=
    fst run = Return tt /\
    res_statusCode (snd run) = 500%N /\
    res_ended (snd run) = true /\
    exists text,
      res_chunks (snd run) = (res_chunks w1 ++ [text])%list /\
      JSON_parse text = Some (JObj [("error", JStr (error_text e))]) in
  (handleJSON (Sse.server tok backend) b (snd (Sse.cors fresh_world)) = (Throw e, w1) ->
   answered (Sse.handler tok backend handleJSON req fresh_world)) /\
  (handleJSON (ServerB.server tok backend) b (snd (ServerB.cors fresh_world)) = (Throw e, w1) ->
   answered (ServerB.handler tok backend handleJSON req fresh_world)).
Proof.
  intros Hm Hb Ht Hend answered. subst answered.
  destruct w1 as [fl co sc hd ch en nw tm nt ls]. simpl in Hend. subst en.
  split; intros Hh.
  - unfold Sse.handler, method_is. rewrite Hm, Hb.
    cbn -[Sse.server truthy JSON_stringify] in Hh |- *. rewrite Ht.
    cbn -[Sse.server truthy JSON_stringify]. unfold try_catch, bind. rewrite Hh.
    cbn -[JSON_stringify JSON_parse]. repeat split.
    eexists. split; [reflexivity|apply error_body_parses].
  - unfold ServerB.handler, method_is. rewrite Hm, Hb.
    cbn -[ServerB.server truthy JSON_stringify] in Hh |- *. rewrite Ht.
    cbn -[ServerB.server truthy JSON_stringify]. unfold try_catch, bind. rewrite Hh.
    cbn -[JSON_stringify JSON_parse]. repeat split.
    eexists. split; [reflexivity|apply error_body_parses].
Qed.

Lemma thrown_errors_are_answered_500_witness :
  let run :=
    ServerB.handler None (stub (mkResponse 200 "{}")) Sdk.handleJSON
      (mkReq (Some "POST")
             (Some (JObj [("params", JObj [("name", JStr "get-file");
                                           ("arguments", JObj [("fileKey", JStr "abc123")])])])))
      fresh_world in
  fst run = Return tt /\
  res_statusCode (snd run) = 500%N /\
  res_ended (snd run) = true /\
  exists text,
    res_chunks (snd run) = ([] ++ [text])%list /\
    JSON_parse text =
      Some (JObj [("error",
                   JStr (error_text
                           (Error "FIGMA_ACCESS_TOKEN mangler i environment variables")))]).
Proof.
  apply (proj2 (thrown_errors_are_answered_500 None (stub (mkResponse 200 "{}"))
           Sdk.handleJSON
           (mkReq (Some "POST")
                  (Some (JObj [("params", JObj [("name", JStr "get-file");
                                                ("arguments", JObj [("fileKey", JStr "abc123")])])])))
           _ (Error "FIGMA_ACCESS_TOKEN mangler i environment variables")
           (snd (ServerB.cors fresh_world))
           eq_refl eq_refl eq_refl eq_refl) eq_refl).
Defined.







Lemma Sse_tools_keep_headers tok backend args w :
  res_headers (snd (Sse.get_file tok backend args w)) = res_headers w /\
  res_headers (snd (Sse.export_node tok backend args w)) = res_headers w.
Proof.
  unfold Sse.get_file, Sse.export_node.
  rewrite bind_ret_world, export_node_world, !Sse_figma_run.
  destruct (token_set tok); rewrite ?figma_sends_world; split; reflexivity.
Qed.

Lemma Sdk_invoke_keeps_headers tok backend rq w :
  res_headers (snd (Sdk.invoke (Sse.server tok backend) rq w)) = res_headers w.
Proof.
  unfold Sdk.invoke.
  cbn [Sse.server new_Server Server_tool tools List.app find fst name
       Sse.get_file_tool Sse.export_node_tool].
  destruct (String.eqb "get-file" (toolName rq)).
  - destruct (safeParse _ _ _); [reflexivity|].
    apply (Sse_tools_keep_headers tok backend).
  - destruct (String.eqb "export-node" (toolName rq)); [|reflexivity].
    destruct (safeParse _ _ _); [reflexivity|].
    apply (Sse_tools_keep_headers tok backend).
Qed.

Lemma Sdk_handleJSON_keeps_headers tok backend b w :
  res_headers (snd (Sdk.handleJSON (Sse.server tok backend) b w)) = res_headers w.
Proof.
  unfold Sdk.handleJSON. destruct b as [envelope|]; [|reflexivity].
  destruct (Sdk.decode envelope) as [rq|]; [|reflexivity].
  rewrite bind_ret_world. apply Sdk_invoke_keeps_headers.
Qed.

Lemma pipeline_headers {A B} (c : M A) (h : exn -> M B) (k : A -> M B) (w : World)
  (name : string) :
  (forall a w', lookup name (res_headers (snd (k a w'))) = lookup name (res_headers w')) ->
  (forall e w', lookup name (res_headers (snd (h e w'))) = lookup name (res_headers w')) ->
  lookup name (res_headers (snd (c w))) = lookup name (res_headers w) ->
  lookup name (res_headers (snd (try_catch (bind c k) h w))) = lookup name (res_headers w).
Proof.
  intros Hk Hh Hc. unfold try_catch, bind.
  destruct (c w) as [[a|e] w1]; simpl in Hc.
  - pose proof (Hk a w1) as Hk1.
    destruct (k a w1) as [[a'|e'] w2]; simpl in Hk1 |- *.
    + congruence.
    + rewrite Hh. congruence.
  - rewrite Hh. exact Hc.
Qed.

(** X17.  The CORS headers set first by the handler with the SSE branch
    are on the response however the request ends: preflight, stream,
    tool call answered with 200, 400 or 500, fallback, or the escape of a
    parse error.  [Access-Control-Allow-Origin] is [*] and
    [Access-Control-Allow-Methods] is [POST, GET, OPTIONS];
    [Access-Control-Allow-Headers] is [Content-Type], except on a GET,
    whose branch overwrites it with [Cache-Control].  This needs of
    [handleJSON] that it leaves the response headers alone. *)
Theorem cors_headers_survive
  (tok : option string) (backend : Backend)
  (handleJSON : Server -> jsval -> M json) (req : VercelRequest) :
  (forall b w, res_headers (snd (handleJSON (Sse.server tok backend) b w))
               = res_headers w) ->
  let w := snd (Sse.handler tok backend handleJSON req fresh_world) in
  lookup "Access-Control-Allow-Origin" (res_headers w) = Some "*" /\
  lookup "Access-Control-Allow-Methods" (res_headers w) = Some "POST, GET, OPTIONS" /\
  lookup "Access-Control-Allow-Headers" (res_headers w) =
    Some (if method_is req "GET" then "Cache-Control" else "Content-Type").
Proof.
  intros Hkeep w. subst w. unfold Sse.handler, method_is.
  destruct (method req) as [m|]; [|repeat split; reflexivity].
  destruct (String.eqb m "OPTIONS") eqn:Eo.
  { apply String.eqb_eq in Eo. subst m. repeat split; reflexivity. }
  destruct (String.eqb m "GET") eqn:Eg.
  { apply String.eqb_eq in Eg. subst m. repeat split; reflexivity. }
  destruct (String.eqb m "POST"); [|repeat split; reflexivity].
  unfold bind at 1.
  change (Sse.cors fresh_world) with (Return tt, snd (Sse.cors fresh_world)).
  cbv iota.
  assert (H : forall name, String.eqb name "Content-Type" = false ->
    lookup name (res_headers (snd
      ((body <- parse_body req ;;
        if negb (truthy body) then
          res_status 400 ;; res_json (JObj [("error", JStr "Missing JSON body")])
        else
          try_catch
            (reply <- handleJSON (Sse.server tok backend) body ;;
             setHeader "Content-Type" "application/json" ;;
             res_status 200 ;; res_json reply)
            (fun err =>
               console_error ("MCP handler error: " ++ String_of_exn err) ;;
               res_status 500 ;;
               res_json (JObj [("error", JStr (error_text err))])))
         (snd (Sse.cors fresh_world)))))
    = lookup name (res_headers (snd (Sse.cors fresh_world)))).
  { intros name Hn. unfold bind at 1.
    set (wc := snd (Sse.cors fresh_world)).
    assert (Hp : (exists b, parse_body req wc = (Return b, wc)) \/
                 (exists e, parse_body req wc = (Throw e, wc))).
    { unfold parse_body, JSON_parse_or_throw.
      destruct (body req) as [[| | |s| |]|]; try (left; eexists; reflexivity).
      destruct (JSON_parse s); [left|right]; eexists; reflexivity. }
    destruct Hp as [[b ->]|[e ->]]; [|reflexivity].
    destruct (truthy b); cbn [negb].
    - apply pipeline_headers.
      + intros a w'. destruct w'. cbn -[lookup assign JSON_stringify].
        destruct res_ended0; cbn -[lookup assign JSON_stringify];
          rewrite !lookup_assign, Hn; reflexivity.
      + intros e w'. destruct w'. cbn -[lookup assign JSON_stringify].
        destruct res_ended0; cbn -[lookup assign JSON_stringify];
          rewrite !lookup_assign, Hn; reflexivity.
      + rewrite Hkeep. reflexivity.
    - subst wc. cbn -[lookup assign JSON_stringify].
      rewrite lookup_assign, Hn. reflexivity. }
  rewrite !H by reflexivity. repeat split; reflexivity.
Qed.

Lemma cors_headers_survive_witness :
  lookup "Access-Control-Allow-Origin"
    (res_headers (snd (Sse.handler None (stub (mkResponse 200 "{}")) Sdk.handleJSON
                         (mkReq (Some "POST") (Some (JStr "{not json")))
                         fresh_world)))
  = Some "*".
Proof.
  apply (cors_headers_survive None (stub (mkResponse 200 "{}")) Sdk.handleJSON
           (mkReq (Some "POST") (Some (JStr "{not json")))
           (Sdk_handleJSON_keeps_headers None (stub (mkResponse 200 "{}")))).
Defined.



(* ================================================================== *)
(** * More on the event stream *)
(* ================================================================== *)

(** X18.  An event stream stays what the GET made it, whatever ticks and
    disconnects follow: status 200 and the event-stream headers, nothing
    logged, nothing sent to the backend, one [close] listener, and no
    second interval ever created. *)
Theorem sse_stream_is_quiet
  (tok : option string) (backend : Backend)
  (handleJSON : Server -> jsval -> M json) (b : jsval) (evs : list event) :
  let w := run_events evs
             (snd (Sse.handler tok backend handleJSON (mkReq (Some "GET") b)
                     fresh_world)) in
  res_statusCode w = 200%N /\
  res_headers w =
    [("Access-Control-Allow-Origin", "*");
     ("Access-Control-Allow-Methods", "POST, GET, OPTIONS");
     ("Access-Control-Allow-Headers", "Cache-Control");
     ("Content-Type", "text/event-stream");
     ("Cache-Control", "no-cache");
     ("Connection", "keep-alive")] /\
  fetch_log w = [] /\ console w = [] /\
  listeners w = [("close", OnClose 0)] /\
  next_timer w = 1 /\ length (timers w) <= 1.
Proof.
  intros w. subst w. rewrite Sse_get_opens_stream. cbn [snd].
  pose proof (run_events_open evs 0) as H.
  destruct (closes evs).
  - destruct H as [m ->]. repeat split. simpl. lia.
  - rewrite H. repeat split. simpl. lia.
Qed.
